(** * auth-backend: session lifecycle of the [auth] module

    A shallow embedding of [src/modules/auth/auth.controller.ts] and
    [src/modules/auth/services/auth.service.ts].  The handlers are
    written in a small monad that threads the persistent world (users,
    refresh sessions, clock, entropy), collects the cookies written on the
    response, and propagates thrown exceptions.  Nothing is rolled back
    when a handler throws: the source uses no transaction. *)

From Stdlib Require Import List String ZArith Bool Arith Lia DecimalString.
Import ListNotations.

Local Open Scope string_scope.
Local Open Scope list_scope.

(** ** Data model *)

(** The [User] entity as the controller uses it: [id], the profile fields
    and the bcrypt hash kept in [password]. *)
Record User := mkUser {
  user_id : nat;
  firstName : string;
  lastName : string;
  user_login : string;
  password : string
}.

(** Modelled from the spec: the declaration of [UserPublicData] and of the
    getter [User.public] is not among the sources; the public view keeps
    the identifier, the login and the profile fields and drops the hash. *)
Record UserPublicData := mkPublic {
  pub_id : nat;
  pub_firstName : string;
  pub_lastName : string;
  pub_login : string
}.

Definition public (u : User) : UserPublicData :=
  mkPublic (user_id u) (firstName u) (lastName u) (user_login u).

(** The [RefreshSession] entity: [expiresAt] is the millisecond timestamp
    of the stored [Date]. *)
Record RefreshSession := mkSession {
  session_id : nat;
  user : User;
  fingerprint : string;
  token : string;
  expiresAt : Z
}.

(** Request bodies, as destructured by the handlers. *)
Record RegisterDto := mkRegisterDto {
  reg_firstName : string;
  reg_lastName : string;
  reg_login : string;
  reg_password : string;
  reg_fingerprint : string
}.

Record LoginDto := mkLoginDto {
  dto_login : string;
  dto_password : string;
  dto_fingerprint : string
}.

Record RefreshTokensDto := mkRefreshTokensDto {
  rt_fingerprint : string
}.

Record CookieOptions := mkCookieOptions {
  httpOnly : bool;
  path : string;
  maxAge : Z
}.

(** One call of [res.cookie(name, value, options)]; [None] is [null],
    respectively a call without options. *)
Record Cookie := mkCookie {
  cookie_name : string;
  cookie_value : option string;
  cookie_options : option CookieOptions
}.

Record JWTs := mkJWTs {
  accessToken : string;
  refreshToken : string
}.

(** What a handler can throw.  The three domain failures of the
    controller are all [BadRequestException]s told apart by their message;
    [DuplicateToken] is the failure of the store's [create]. *)
Inductive Exception :=
| BadRequestException (message : string)
| DuplicateToken.

Definition Conflict : Exception :=
  BadRequestException "User with this login has been already registered.".
Definition InvalidCredentials : Exception :=
  BadRequestException "Invalid credentials.".
Definition InvalidRefreshToken : Exception :=
  BadRequestException "Invalid refresh token".

(** ** The world and the handler monad *)

(** [now] is what [Date.now()] returns while a request is served; [entropy]
    counts the random draws made so far ([v4()], [bcrypt.genSalt]). *)
Record World := mkWorld {
  users : list User;
  sessions : list RefreshSession;
  nextUserId : nat;
  nextSessionId : nat;
  now : Z;
  entropy : nat
}.

Definition set_users (f : list User -> list User) (w : World) : World :=
  mkWorld (f (users w)) (sessions w) (nextUserId w) (nextSessionId w)
          (now w) (entropy w).

Definition set_sessions (f : list RefreshSession -> list RefreshSession)
    (w : World) : World :=
  mkWorld (users w) (f (sessions w)) (nextUserId w) (nextSessionId w)
          (now w) (entropy w).

Definition bump_userId (w : World) : World :=
  mkWorld (users w) (sessions w) (S (nextUserId w)) (nextSessionId w)
          (now w) (entropy w).

Definition bump_sessionId (w : World) : World :=
  mkWorld (users w) (sessions w) (nextUserId w) (S (nextSessionId w))
          (now w) (entropy w).

Definition bump_entropy (w : World) : World :=
  mkWorld (users w) (sessions w) (nextUserId w) (nextSessionId w)
          (now w) (S (entropy w)).

Definition advance (d : Z) (w : World) : World :=
  mkWorld (users w) (sessions w) (nextUserId w) (nextSessionId w)
          (now w + d)%Z (entropy w).

Inductive Result (A : Type) :=
| Ok (a : A)
| Err (e : Exception).
Arguments Ok {A} a.
Arguments Err {A} e.

(** A handler maps the world to its result, the cookies it wrote and the
    world it leaves behind. *)
Definition M (A : Type) : Type := World -> Result A * list Cookie * World.

Definition ret {A} (a : A) : M A := fun w => (Ok a, [], w).

Definition throw {A} (e : Exception) : M A := fun w => (Err e, [], w).

Definition bind {A B} (m : M A) (k : A -> M B) : M B :=
  fun w =>
    match m w with
    | (Ok a, c1, w1) =>
        match k a w1 with
        | (r, c2, w2) => (r, c1 ++ c2, w2)
        end
    | (Err e, c1, w1) => (Err e, c1, w1)
    end.

(** [try { m } catch (error) { h }] *)
Definition try_catch {A} (m : M A) (h : Exception -> M A) : M A :=
  fun w =>
    match m w with
    | (Ok a, c1, w1) => (Ok a, c1, w1)
    | (Err e, c1, w1) =>
        match h e w1 with
        | (r, c2, w2) => (r, c1 ++ c2, w2)
        end
    end.

Declare Scope handler_scope.
Delimit Scope handler_scope with handler.
Notation "x <- m ;; k" := (bind m (fun x => k))
  (at level 61, m at next level, right associativity) : handler_scope.
Notation "m ;; k" := (bind m (fun _ => k))
  (at level 61, right associativity) : handler_scope.
Local Open Scope handler_scope.

Definition result {A} (o : Result A * list Cookie * World) : Result A :=
  fst (fst o).
Definition cookies {A} (o : Result A * list Cookie * World) : list Cookie :=
  snd (fst o).
Definition world {A} (o : Result A * list Cookie * World) : World :=
  snd o.

Definition Date_now : M Z := fun w => (Ok (now w), [], w).

Definition res_cookie (name : string) (value : option string)
    (options : option CookieOptions) : M unit :=
  fun w => (Ok tt, [mkCookie name value options], w).

(** ** External collaborators

    Libraries and configuration the module is injected with.  The random
    sources are indexed by the draw counter of the world; signing and
    verification see the clock because a JWT carries its own expiry. *)
Record Env := mkEnv {
  v4 : nat -> string;
  bcrypt_salt : nat -> nat -> string;
  bcrypt_hash : string -> string -> string;
  bcrypt_compare : string -> string -> bool;
  jwt_sign : Z -> nat -> string;
  jwt_verify : Z -> string -> option nat;
  jwt_accessToken_expiresIn : Z;
  jwt_refreshToken_expiresIn : Z
}.

(** ** UserService *)

Module UserService.

Inductive Conditions :=
| ByLogin (login : string)
| WhereId (id : nat).

Definition matches (c : Conditions) (u : User) : bool :=
  match c with
  | ByLogin l => String.eqb (user_login u) l
  | WhereId i => Nat.eqb (user_id u) i
  end.

(** Modelled from the spec: [UserService] is not among the sources; the
    user collaborator is read by login or by identifier and answers with
    the stored user or nothing. *)
Definition findOne (c : Conditions) : M (option User) :=
  fun w => (Ok (find (matches c) (users w)), [], w).

(** Modelled from the spec: [UserService.create] is not among the
    sources; the collaborator persists the user under a fresh,
    system-generated identifier. *)
Definition create (fn ln login pw : string) : M User :=
  fun w =>
    let u := mkUser (nextUserId w) fn ln login pw in
    (Ok u, [], bump_userId (set_users (fun us => us ++ [u]) w)).

End UserService.

(** ** RefreshSessionService (the Credential Store) *)

Module RefreshSessionService.

(** The condition objects the controller passes: [{fingerprint, token}],
    [{fingerprint}] and [{token}]; an absent field constrains nothing. *)
Record Conditions := mkConditions {
  where_fingerprint : option string;
  where_token : option string
}.

Definition field_ok (c : option string) (v : string) : bool :=
  match c with
  | Some x => String.eqb v x
  | None => true
  end.

Definition matches (c : Conditions) (s : RefreshSession) : bool :=
  field_ok (where_fingerprint c) (fingerprint s)
  && field_ok (where_token c) (token s).

(** Modelled from the spec: [refresh-session.service.ts] is not among
    the sources; [findSession(fingerprint, token)] is an exact match on
    both fields and answers with the session (its user loaded) or
    nothing. *)
Definition findOne (c : Conditions) : M (option RefreshSession) :=
  fun w => (Ok (find (matches c) (sessions w)), [], w).

(** Modelled from the spec: [refresh-session.service.ts] is not among
    the sources; deletion by condition removes every session that
    matches, and the absence of a match is not an error. *)
Definition delete (c : Conditions) : M unit :=
  fun w =>
    (Ok tt, [], set_sessions (filter (fun s => negb (matches c s))) w).

(** Modelled from the spec: [refresh-session.service.ts] is not among
    the sources; [deleteSession(session)] is the idempotent removal of
    that one stored entity. *)
Definition remove (s : RefreshSession) : M unit :=
  fun w =>
    (Ok tt, [],
     set_sessions
       (filter (fun x => negb (Nat.eqb (session_id x) (session_id s)))) w).

(** Modelled from the spec: [refresh-session.service.ts] is not among
    the sources; [createSession] fails with [DuplicateToken] when the
    token collides with a stored one, and otherwise persists the session
    under a fresh identifier and returns it. *)
Definition create (u : User) (fp : string) (exp : Z) (tok : string)
    : M RefreshSession :=
  fun w =>
    if existsb (fun s => String.eqb (token s) tok) (sessions w)
    then (Err DuplicateToken, [], w)
    else
      let s := mkSession (nextSessionId w) u fp tok exp in
      (Ok s, [], bump_sessionId (set_sessions (fun ss => ss ++ [s]) w)).

End RefreshSessionService.

(** ** AuthController *)

Module AuthController.
Section Handlers.

Variable env : Env.

Definition uuid_v4 : M string :=
  fun w => (Ok (v4 env (entropy w)), [], bump_entropy w).

Definition bcrypt_genSalt (rounds : nat) : M string :=
  fun w => (Ok (bcrypt_salt env rounds (entropy w)), [], bump_entropy w).

Definition jwtService_signAsync (userId : nat) : M string :=
  fun w => (Ok (jwt_sign env (now w) userId), [], w).

Definition accessTokenCookieOptions : CookieOptions :=
  mkCookieOptions true "/" (jwt_accessToken_expiresIn env).

Definition refreshTokenCookieOptions : CookieOptions :=
  mkCookieOptions true "/api/auth" (jwt_refreshToken_expiresIn env).

(** [getJWTs(user, fingerprint)], the spec's [IssueSession].  The stored
    [expiresAt] is the millisecond value of
    [new Date(Date.now() + refreshTokenExpiresIn)], which is that sum as
    long as it is within the range of [Date]. *)
Definition getJWTs (u : User) (fp : string) : M JWTs :=
  let refreshTokenExpiresIn := jwt_refreshToken_expiresIn env in
  accessToken <- jwtService_signAsync (user_id u) ;;
  t <- Date_now ;;
  tok <- uuid_v4 ;;
  refreshToken <-
    RefreshSessionService.create u fp (t + refreshTokenExpiresIn)%Z tok ;;
  ret (mkJWTs accessToken (token refreshToken)).

(** [POST auth/register] *)
Definition register (dto : RegisterDto) : M UserPublicData :=
  existedUser <- UserService.findOne (UserService.ByLogin (reg_login dto)) ;;
  match existedUser with
  | Some _ => throw Conflict
  | None =>
      salt <- bcrypt_genSalt 10 ;;
      let hashedPassword := bcrypt_hash env (reg_password dto) salt in
      u <- UserService.create (reg_firstName dto) (reg_lastName dto)
             (reg_login dto) hashedPassword ;;
      jwts <- getJWTs u (reg_fingerprint dto) ;;
      res_cookie "access-token" (Some (accessToken jwts))
        (Some accessTokenCookieOptions) ;;
      res_cookie "refresh-token" (Some (refreshToken jwts))
        (Some refreshTokenCookieOptions) ;;
      ret (public u)
  end.

(** [POST auth/login] *)
Definition login (dto : LoginDto) : M UserPublicData :=
  found <- UserService.findOne (UserService.ByLogin (dto_login dto)) ;;
  let error := InvalidCredentials in
  match found with
  | None => throw error
  | Some u =>
      let doPasswordsMatch :=
        bcrypt_compare env (dto_password dto) (password u) in
      if negb doPasswordsMatch then throw error
      else
        RefreshSessionService.delete
          (RefreshSessionService.mkConditions
             (Some (dto_fingerprint dto)) None) ;;
        jwts <- getJWTs u (dto_fingerprint dto) ;;
        res_cookie "access-token" (Some (accessToken jwts))
          (Some accessTokenCookieOptions) ;;
        res_cookie "refresh-token" (Some (refreshToken jwts))
          (Some refreshTokenCookieOptions) ;;
        ret (public u)
  end.

(** JavaScript's [!token] on the value of [req.cookies["refresh-token"]]:
    an absent cookie and the empty string are falsy. *)
Definition falsy (cookie : option string) : bool :=
  match cookie with
  | None => true
  | Some t => String.eqb t ""
  end.

(** [POST auth/refresh-tokens]; [cookie] is [req.cookies["refresh-token"]]. *)
Definition refreshTokens (dto : RefreshTokensDto) (cookie : option string)
    : M unit :=
  let error := InvalidRefreshToken in
  if falsy cookie then throw error
  else
    found <- RefreshSessionService.findOne
               (RefreshSessionService.mkConditions
                  (Some (rt_fingerprint dto)) cookie) ;;
    match found with
    | None => throw error
    | Some session =>
        t <- Date_now ;;
        let isExpired := (t - expiresAt session >=? 0)%Z in
        if isExpired then throw error
        else
          RefreshSessionService.remove session ;;
          jwts <- getJWTs (user session) (rt_fingerprint dto) ;;
          res_cookie "access-token" (Some (accessToken jwts))
            (Some accessTokenCookieOptions) ;;
          res_cookie "refresh-token" (Some (refreshToken jwts))
            (Some refreshTokenCookieOptions)
    end.

(** [GET auth/credentials] *)
Definition getCredentials (u : User) : UserPublicData := public u.

(** [POST auth/logout]; the source types the cookie value as [string]. *)
Definition logout (tok : string) : M unit :=
  res_cookie "access-token" None None ;;
  res_cookie "refresh-token" None None ;;
  RefreshSessionService.delete
    (RefreshSessionService.mkConditions None (Some tok)).

End Handlers.
End AuthController.

(** ** AuthService *)

Module AuthService.
Section Service.

Variable env : Env.

(** [jwtService.verifyAsync(token)] rejects (throws) on a bad signature,
    an expired or a malformed token. *)
Definition jwtService_verifyAsync (tok : string) : M nat :=
  fun w =>
    match jwt_verify env (now w) tok with
    | Some userId => (Ok userId, [], w)
    | None => (Err (BadRequestException "jwt"), [], w)
    end.

(** [findUserByAccessToken(token)], the spec's [ResolveIdentity]; [None]
    is the [null] of the source.  The source returns the promise of
    [findOne] without awaiting it, so a rejection of that promise would
    pass the [catch]; the modelled [findOne] never rejects. *)
Definition findUserByAccessToken (tok : string) : M (option User) :=
  try_catch
    (userId <- jwtService_verifyAsync tok ;;
     UserService.findOne (UserService.WhereId userId))
    (fun _ => ret None).

(** The service carries its own copy of [getJWTs]; in its object literal
    [v4()] is evaluated before [Date.now()]. *)
Definition getJWTs (u : User) (fp : string) : M JWTs :=
  let refreshTokenExpiresIn := jwt_refreshToken_expiresIn env in
  accessToken <- AuthController.jwtService_signAsync env (user_id u) ;;
  tok <- AuthController.uuid_v4 env ;;
  t <- Date_now ;;
  refreshToken <-
    RefreshSessionService.create u fp (t + refreshTokenExpiresIn)%Z tok ;;
  ret (mkJWTs accessToken (token refreshToken)).

(** The service's copies of the two cookie option getters. *)
Definition accessTokenCookieOptions : CookieOptions :=
  mkCookieOptions true "/" (jwt_accessToken_expiresIn env).

Definition refreshTokenCookieOptions : CookieOptions :=
  mkCookieOptions true "/api/auth" (jwt_refreshToken_expiresIn env).

End Service.
End AuthService.

(** ** Session predicates *)

(** The expiry test of [refreshTokens]:
    [Date.now() - Number(session.expiresAt) >= 0]. *)
Definition isExpired (t : Z) (s : RefreshSession) : bool :=
  (t - expiresAt s >=? 0)%Z.

(** The session belongs to the pair (user, fingerprint). *)
Definition owned_by (uid : nat) (fp : string) (s : RefreshSession) : bool :=
  Nat.eqb (user_id (user s)) uid && String.eqb (fingerprint s) fp.

(** The sessions of a pair, and those of them that are not expired at the
    world's clock (the spec's Active sessions). *)
Definition sessions_of (w : World) (uid : nat) (fp : string)
    : list RefreshSession :=
  filter (owned_by uid fp) (sessions w).

Definition active_sessions (w : World) (uid : nat) (fp : string)
    : list RefreshSession :=
  filter (fun s => owned_by uid fp s && negb (isExpired (now w) s))
         (sessions w).

(** [findSession(fingerprint, token)] on the stored sessions. *)
Definition findSession (w : World) (fp tok : string)
    : option RefreshSession :=
  find (RefreshSessionService.matches
          (RefreshSessionService.mkConditions (Some fp) (Some tok)))
       (sessions w).

(** The session a refresh request selects: the stored session that
    matches the presented cookie and the fingerprint, if the cookie is
    there. *)
Definition matching (w : World) (fp : string) (cookie : option string)
    : option RefreshSession :=
  match cookie with
  | Some tok => findSession w fp tok
  | None => None
  end.

(** No stored token is the empty string (a [v4()] UUID has 36
    characters). *)
Definition tokens_nonempty (w : World) : Prop :=
  forall s, In s (sessions w) -> token s <> "".

(** ** Histories *)

(** What happens to the store: the public operations and the passing of
    time (by [ms] milliseconds). *)
Inductive Event :=
| Register (dto : RegisterDto)
| Login (dto : LoginDto)
| RefreshTokens (dto : RefreshTokensDto) (cookie : option string)
| Logout (tok : string)
| ResolveIdentity (tok : string)
| Tick (ms : N).

Definition handle (env : Env) (ev : Event) (w : World) : World :=
  match ev with
  | Register dto => world (AuthController.register env dto w)
  | Login dto => world (AuthController.login env dto w)
  | RefreshTokens dto cookie =>
      world (AuthController.refreshTokens env dto cookie w)
  | Logout tok => world (AuthController.logout tok w)
  | ResolveIdentity tok => world (AuthService.findUserByAccessToken env tok w)
  | Tick ms => advance (Z.of_N ms) w
  end.

Definition run (env : Env) (evs : list Event) (w : World) : World :=
  fold_left (fun w ev => handle env ev w) evs w.

Definition initial (t0 : Z) : World := mkWorld [] [] 0 0 t0 0.

Definition reachable (env : Env) (w : World) : Prop :=
  exists t0 evs, w = run env evs (initial t0).

(** The invariant of the store that the handlers maintain. *)
Record store_ok (w : World) : Prop := mkStoreOk {
  ok_user_ids : forall u, In u (users w) -> user_id u < nextUserId w;
  ok_session_ids :
    forall s, In s (sessions w) -> session_id s < nextSessionId w;
  ok_session_users :
    forall s, In s (sessions w) -> user_id (user s) < nextUserId w;
  ok_ids_nodup : NoDup (map session_id (sessions w));
  ok_tokens_nodup : NoDup (map token (sessions w));
  ok_one_per_pair :
    forall uid fp, List.length (sessions_of w uid fp) <= 1
}.

(** ** The worlds the handlers leave *)

Section Worlds.

Variable env : Env.

(** The session [getJWTs] stores and the world it leaves. *)
Definition issued (u : User) (fp : string) (w : World) : RefreshSession :=
  mkSession (nextSessionId w) u fp (v4 env (entropy w))
            (now w + jwt_refreshToken_expiresIn env)%Z.

Definition issue_world (u : User) (fp : string) (w : World) : World :=
  mkWorld (users w) (sessions w ++ [issued u fp w]) (nextUserId w)
          (S (nextSessionId w)) (now w) (S (entropy w)).

Definition collides (w : World) : bool :=
  existsb (fun s => String.eqb (token s) (v4 env (entropy w))) (sessions w).

(** The cookies a successful register, login or refresh writes. *)
Definition jwt_cookies (access refresh : string) : list Cookie :=
  [ mkCookie "access-token" (Some access)
      (Some (AuthController.accessTokenCookieOptions env));
    mkCookie "refresh-token" (Some refresh)
      (Some (AuthController.refreshTokenCookieOptions env)) ].

Definition drop_fingerprint (fp : string) (w : World) : World :=
  set_sessions
    (filter (fun s => negb (RefreshSessionService.matches
               (RefreshSessionService.mkConditions (Some fp) None) s))) w.

Definition drop_token (tok : string) (w : World) : World :=
  set_sessions
    (filter (fun s => negb (RefreshSessionService.matches
               (RefreshSessionService.mkConditions None (Some tok)) s))) w.

Definition drop_session (s : RefreshSession) (w : World) : World :=
  set_sessions
    (filter (fun x => negb (Nat.eqb (session_id x) (session_id s)))) w.

Definition add_user (u : User) (w : World) : World :=
  mkWorld (users w ++ [u]) (sessions w) (S (nextUserId w)) (nextSessionId w)
          (now w) (S (entropy w)).

(** The user [register] creates: the next identifier, the profile of the
    request and the salted hash of its password. *)
Definition new_user (dto : RegisterDto) (w : World) : User :=
  mkUser (nextUserId w) (reg_firstName dto) (reg_lastName dto)
         (reg_login dto)
         (bcrypt_hash env (reg_password dto) (bcrypt_salt env 10 (entropy w))).

End Worlds.

(** ** Refresh as a sequence of store round trips

    [refreshTokens] awaits four times: the lookup, the removal, the
    signing and the creation of the new session.  Between two awaits the
    handler runs without interruption; at an await another request may be
    served.  A [Task] is a refresh request suspended at one of its awaits,
    and [task_step] runs it up to the next one. *)

Inductive Task :=
| Begin (dto : RefreshTokensDto) (cookie : option string)
| Removing (dto : RefreshTokensDto) (session : RefreshSession)
| Signing (dto : RefreshTokensDto) (session : RefreshSession)
| Creating (dto : RefreshTokensDto) (session : RefreshSession)
    (access : string) (exp : Z) (tok : string)
| Finished (r : Result unit) (c : list Cookie).

Section Tasks.

Variable env : Env.

Definition task_step (t : Task) (w : World) : Task * World :=
  match t with
  | Begin dto cookie =>
      if AuthController.falsy cookie
      then (Finished (Err InvalidRefreshToken) [], w)
      else
        match RefreshSessionService.findOne
                (RefreshSessionService.mkConditions
                   (Some (rt_fingerprint dto)) cookie) w with
        | (Ok (Some session), _, w1) =>
            if (now w1 - expiresAt session >=? 0)%Z
            then (Finished (Err InvalidRefreshToken) [], w1)
            else (Removing dto session, w1)
        | (Ok None, _, w1) => (Finished (Err InvalidRefreshToken) [], w1)
        | (Err e, _, w1) => (Finished (Err e) [], w1)
        end
  | Removing dto session =>
      match RefreshSessionService.remove session w with
      | (Ok _, _, w1) => (Signing dto session, w1)
      | (Err e, _, w1) => (Finished (Err e) [], w1)
      end
  | Signing dto session =>
      match (access <- AuthController.jwtService_signAsync env
                         (user_id (user session)) ;;
             t <- Date_now ;;
             tok <- AuthController.uuid_v4 env ;;
             ret (access, t, tok)) w with
      | (Ok (access, t, tok), _, w1) =>
          (Creating dto session access
             (t + jwt_refreshToken_expiresIn env)%Z tok, w1)
      | (Err e, _, w1) => (Finished (Err e) [], w1)
      end
  | Creating dto session access exp tok =>
      match RefreshSessionService.create (user session) (rt_fingerprint dto)
              exp tok w with
      | (Ok created, _, w1) =>
          (Finished (Ok tt)
             [ mkCookie "access-token" (Some access)
                 (Some (AuthController.accessTokenCookieOptions env));
               mkCookie "refresh-token" (Some (token created))
                 (Some (AuthController.refreshTokenCookieOptions env)) ],
           w1)
      | (Err e, _, w1) => (Finished (Err e) [], w1)
      end
  | Finished r c => (Finished r c, w)
  end.

(** The request served alone: its four round trips in a row. *)
Definition serve_alone (t : Task) (w : World) : Task * World :=
  let '(t1, w1) := task_step t w in
  let '(t2, w2) := task_step t1 w1 in
  let '(t3, w3) := task_step t2 w2 in
  task_step t3 w3.

(** Two requests in flight; the schedule says whose round trip the store
    answers next ([false]: the first request, [true]: the second). *)
Fixpoint interleave (schedule : list bool) (a b : Task) (w : World)
    : Task * Task * World :=
  match schedule with
  | [] => (a, b, w)
  | false :: rest =>
      let '(a1, w1) := task_step a w in interleave rest a1 b w1
  | true :: rest =>
      let '(b1, w1) := task_step b w in interleave rest a b1 w1
  end.

End Tasks.




(** ** A concrete deployment *)

Definition uuid (n : nat) : string :=
  ("rt-" ++ NilEmpty.string_of_uint (Nat.to_uint n))%string.

Definition env0 : Env :=
  mkEnv uuid
        (fun _ _ => "$2b$10$")
        (fun pw salt => (salt ++ pw)%string)
        (fun pw hash => String.eqb hash ("$2b$10$" ++ pw)%string)
        (fun _ userId =>
           ("jwt." ++ NilEmpty.string_of_uint (Nat.to_uint userId))%string)
        (fun _ tok =>
           if String.eqb tok "jwt.0" then Some 0
           else if String.eqb tok "jwt.1" then Some 1
           else None)
        5 10.

(** The same deployment with a [v4()] that keeps drawing one value. *)
Definition env_stuck : Env :=
  mkEnv (fun _ => "rt-0")
        (bcrypt_salt env0) (bcrypt_hash env0) (bcrypt_compare env0)
        (jwt_sign env0) (jwt_verify env0)
        (jwt_accessToken_expiresIn env0) (jwt_refreshToken_expiresIn env0).

Definition alice_dev1 : RegisterDto :=
  mkRegisterDto "Alice" "A" "alice" "secret-a" "dev1".
Definition bob_dev1 : RegisterDto :=
  mkRegisterDto "Bob" "B" "bob" "secret-b" "dev1".

(** Alice and Bob have registered from the same device at time 0. *)
Definition two_users : World :=
  run env0 [Register alice_dev1; Register bob_dev1] (initial 0).

(** Alice has registered at time 0. *)
Definition one_user : World := run env0 [Register alice_dev1] (initial 0).

(** ** Users *)

(** What the handlers maintain of the stored users: logins and
    identifiers are pairwise distinct and identifiers are below the next
    one. *)
Record users_ok (w : World) : Prop := mkUsersOk {
  uok_logins : NoDup (map user_login (users w));
  uok_ids : NoDup (map user_id (users w));
  uok_below : forall u, In u (users w) -> user_id u < nextUserId w
}.

(** ** Login as a sequence of round trips

    [login] awaits five times: the user lookup, the password comparison,
    the deletion by fingerprint, the signing and the creation of the
    session. *)

Inductive LoginTask :=
| LoginBegin (dto : LoginDto)
| Comparing (dto : LoginDto) (u : User)
| Deleting (dto : LoginDto) (u : User)
| LoginSigning (dto : LoginDto) (u : User)
| LoginCreating (dto : LoginDto) (u : User)
    (access : string) (exp : Z) (tok : string)
| LoginFinished (r : Result UserPublicData) (c : list Cookie).

Section LoginTasks.

Variable env : Env.

Definition login_step (t : LoginTask) (w : World) : LoginTask * World :=
  match t with
  | LoginBegin dto =>
      match UserService.findOne (UserService.ByLogin (dto_login dto)) w with
      | (Ok (Some u), _, w1) => (Comparing dto u, w1)
      | (Ok None, _, w1) => (LoginFinished (Err InvalidCredentials) [], w1)
      | (Err e, _, w1) => (LoginFinished (Err e) [], w1)
      end
  | Comparing dto u =>
      if negb (bcrypt_compare env (dto_password dto) (password u))
      then (LoginFinished (Err InvalidCredentials) [], w)
      else (Deleting dto u, w)
  | Deleting dto u =>
      match RefreshSessionService.delete
              (RefreshSessionService.mkConditions
                 (Some (dto_fingerprint dto)) None) w with
      | (Ok _, _, w1) => (LoginSigning dto u, w1)
      | (Err e, _, w1) => (LoginFinished (Err e) [], w1)
      end
  | LoginSigning dto u =>
      match (access <- AuthController.jwtService_signAsync env (user_id u) ;;
             t <- Date_now ;;
             tok <- AuthController.uuid_v4 env ;;
             ret (access, t, tok)) w with
      | (Ok (access, t, tok), _, w1) =>
          (LoginCreating dto u access
             (t + jwt_refreshToken_expiresIn env)%Z tok, w1)
      | (Err e, _, w1) => (LoginFinished (Err e) [], w1)
      end
  | LoginCreating dto u access exp tok =>
      match RefreshSessionService.create u (dto_fingerprint dto) exp tok w
      with
      | (Ok created, _, w1) =>
          (LoginFinished (Ok (public u))
             [ mkCookie "access-token" (Some access)
                 (Some (AuthController.accessTokenCookieOptions env));
               mkCookie "refresh-token" (Some (token created))
                 (Some (AuthController.refreshTokenCookieOptions env)) ],
           w1)
      | (Err e, _, w1) => (LoginFinished (Err e) [], w1)
      end
  | LoginFinished r c => (LoginFinished r c, w)
  end.

(** The login served alone: its five round trips in a row. *)
Definition login_alone (t : LoginTask) (w : World) : LoginTask * World :=
  let '(t1, w1) := login_step t w in
  let '(t2, w2) := login_step t1 w1 in
  let '(t3, w3) := login_step t2 w2 in
  let '(t4, w4) := login_step t3 w3 in
  login_step t4 w4.

(** Two logins in flight ([false]: the first, [true]: the second). *)
Fixpoint interleave_logins (schedule : list bool) (a b : LoginTask)
    (w : World) : LoginTask * LoginTask * World :=
  match schedule with
  | [] => (a, b, w)
  | false :: rest =>
      let '(a1, w1) := login_step a w in interleave_logins rest a1 b w1
  | true :: rest =>
      let '(b1, w1) := login_step b w in interleave_logins rest a b1 w1
  end.

End LoginTasks.

(** The event is not one of the two that remove session [s] whatever its
    age: a login under its fingerprint, a logout with its token. *)
Definition spares (s : RefreshSession) (ev : Event) : bool :=
  match ev with
  | Login dto => negb (String.eqb (fingerprint s) (dto_fingerprint dto))
  | Logout tok => negb (String.eqb (token s) tok)
  | _ => true
  end.

(** ** Schedules of two requests in flight *)

(** How many turns the schedule gives to a request. *)
Definition turns (who : bool) (schedule : list bool) : nat :=
  List.length (filter (Bool.eqb who) schedule).

(** The position in the schedule of the [k]-th turn of a request
    (counting turns from 1, positions from 0). *)
Fixpoint turn_index (who : bool) (k : nat) (schedule : list bool) : nat :=
  match schedule with
  | [] => 0
  | x :: rest =>
      if Bool.eqb x who
      then match k with
           | 0 | 1 => 0
           | S k' => S (turn_index who k' rest)
           end
      else S (turn_index who k rest)
  end.

(** The lookups (first round trips) of both refresh requests come before
    the removal (second round trip) of either. *)
Definition lookups_first (schedule : list bool) : bool :=
  Nat.ltb (turn_index false 1 schedule) (turn_index true 2 schedule)
  && Nat.ltb (turn_index true 1 schedule) (turn_index false 2 schedule).

(** The deletions by fingerprint (third round trips) of both logins come
    before the creation (fifth round trip) of either. *)
Definition deletes_first (schedule : list bool) : bool :=
  Nat.ltb (turn_index false 3 schedule) (turn_index true 5 schedule)
  && Nat.ltb (turn_index true 3 schedule) (turn_index false 5 schedule).

(** All schedules of a given length. *)
Fixpoint schedules (n : nat) : list (list bool) :=
  match n with
  | 0 => [[]]
  | S n' => map (cons false) (schedules n') ++ map (cons true) (schedules n')
  end.

(** The next two values [v4()] draws are new: neither is a stored token
    and they differ. *)
Definition draws_new (env : Env) (w : World) : bool :=
  negb (existsb (fun x => String.eqb (token x) (v4 env (entropy w))
                          || String.eqb (token x) (v4 env (S (entropy w))))
                (sessions w))
  && negb (String.eqb (v4 env (entropy w)) (v4 env (S (entropy w)))).

(** [new Date(ms)] is a valid date: [ms] is within 8.64e15 milliseconds of
    the epoch.  Outside of that range the date is invalid and the
    comparison of [refreshTokens] is one with [NaN]; the session's
    [expiresAt] stands for the stored date within the range only. *)
Definition Date_valid (ms : Z) : bool :=
  (Z.abs ms <=? 8640000000000000)%Z.

(** ** Two refreshes of one token, round trip by round trip

    Where two refresh requests presenting the token of session [s] can
    be, in terms of what has happened so far: how far each request is,
    whether [s] has been removed, how many tokens have been drawn and
    which draws have become sessions, in the order of their creation. *)

Inductive RefreshPhase :=
| RBegin
| RRemoving
| RSigning
| RCreating (k : nat)
| RDone (k : nat)
| RRejected.

Record RefreshRace := mkRefreshRace {
  rr_a : RefreshPhase;
  rr_b : RefreshPhase;
  rr_removed : bool;
  rr_drawn : nat;
  rr_created : list nat
}.

Definition refresh_race_start : RefreshRace :=
  mkRefreshRace RBegin RBegin false 0 [].

Definition rr_phase (who : bool) (st : RefreshRace) : RefreshPhase :=
  if who then rr_b st else rr_a st.

Definition rr_put (who : bool) (p : RefreshPhase) (removed : bool)
    (drawn : nat) (created : list nat) (st : RefreshRace) : RefreshRace :=
  if who then mkRefreshRace (rr_a st) p removed drawn created
  else mkRefreshRace p (rr_b st) removed drawn created.

(** One round trip of a request.  [None] stands for the cases left out: a
    third draw, or a draw that has already become a session. *)
Definition refresh_race_step (who : bool) (st : RefreshRace)
    : option RefreshRace :=
  match rr_phase who st with
  | RBegin =>
      if rr_removed st
      then if forallb (fun k => Nat.ltb k 2) (rr_created st)
           then Some (rr_put who RRejected true (rr_drawn st)
                        (rr_created st) st)
           else None
      else Some (rr_put who RRemoving false (rr_drawn st) (rr_created st) st)
  | RRemoving =>
      Some (rr_put who RSigning true (rr_drawn st) (rr_created st) st)
  | RSigning =>
      Some (rr_put who (RCreating (rr_drawn st)) (rr_removed st)
              (S (rr_drawn st)) (rr_created st) st)
  | RCreating k =>
      if Nat.ltb k 2
         && forallb (fun k' => Nat.ltb k' 2 && negb (Nat.eqb k' k))
              (rr_created st)
      then Some (rr_put who (RDone k) (rr_removed st) (rr_drawn st)
                   (rr_created st ++ [k]) st)
      else None
  | RDone k => Some st
  | RRejected => Some st
  end.

Fixpoint refresh_race_run (schedule : list bool) (st : RefreshRace)
    : option RefreshRace :=
  match schedule with
  | [] => Some st
  | who :: rest =>
      match refresh_race_step who st with
      | Some st1 => refresh_race_run rest st1
      | None => None
      end
  end.

Definition rr_done (p : RefreshPhase) : bool :=
  match p with RDone _ => true | _ => false end.

Definition rr_rejected (p : RefreshPhase) : bool :=
  match p with RRejected => true | _ => false end.

(** What a schedule of four round trips each leads to: with both lookups
    first, two successes and two new sessions; otherwise the request that
    moved first succeeds, the other is rejected and one session is new. *)
Definition refresh_race_verdict (schedule : list bool) : bool :=
  match refresh_race_run schedule refresh_race_start with
  | Some st =>
      rr_removed st
      && if lookups_first schedule
         then rr_done (rr_a st) && rr_done (rr_b st)
              && Nat.eqb (List.length (rr_created st)) 2
         else match schedule with
              | false :: _ => rr_done (rr_a st) && rr_rejected (rr_b st)
              | _ => rr_rejected (rr_a st) && rr_done (rr_b st)
              end
              && Nat.eqb (List.length (rr_created st)) 1
  | None => false
  end.

Section RefreshRaceWorlds.

Variable env : Env.
Variable w : World.
Variable dto : RefreshTokensDto.
Variable tok : string.
Variable s : RefreshSession.

Definition rr_task (p : RefreshPhase) : Task :=
  match p with
  | RBegin => Begin dto (Some tok)
  | RRemoving => Removing dto s
  | RSigning => Signing dto s
  | RCreating k =>
      Creating dto s (jwt_sign env (now w) (user_id (user s)))
        (now w + jwt_refreshToken_expiresIn env)%Z (v4 env (k + entropy w))
  | RDone k =>
      Finished (Ok tt)
        (jwt_cookies env (jwt_sign env (now w) (user_id (user s)))
           (v4 env (k + entropy w)))
  | RRejected => Finished (Err InvalidRefreshToken) []
  end.

(** The sessions created so far: the [j]-th of them has the [j]-th new
    identifier and the token of its draw. *)
Fixpoint rr_sessions (j : nat) (created : list nat) : list RefreshSession :=
  match created with
  | [] => []
  | k :: rest =>
      mkSession (j + nextSessionId w) (user s) (rt_fingerprint dto)
        (v4 env (k + entropy w))
        (now w + jwt_refreshToken_expiresIn env)%Z
      :: rr_sessions (S j) rest
  end.

Definition rr_world (st : RefreshRace) : World :=
  mkWorld (users w)
    ((if rr_removed st then sessions (drop_session s w) else sessions w)
     ++ rr_sessions 0 (rr_created st))
    (nextUserId w)
    (List.length (rr_created st) + nextSessionId w)
    (now w)
    (rr_drawn st + entropy w).

End RefreshRaceWorlds.

(** ** Two logins of one user from one device, round trip by round trip *)

Inductive LoginPhase :=
| LBegin
| LComparing
| LDeleting
| LSigning
| LCreating (k : nat)
| LDone (k : nat).

(** [lr_made] counts the sessions created so far; [lr_present] lists
    those of them still stored, each with its rank and its draw. *)
Record LoginRace := mkLoginRace {
  lr_a : LoginPhase;
  lr_b : LoginPhase;
  lr_deleted : bool;
  lr_drawn : nat;
  lr_made : nat;
  lr_present : list (nat * nat)
}.

Definition login_race_start : LoginRace :=
  mkLoginRace LBegin LBegin false 0 0 [].

Definition lr_phase (who : bool) (st : LoginRace) : LoginPhase :=
  if who then lr_b st else lr_a st.

Definition lr_put (who : bool) (p : LoginPhase) (deleted : bool)
    (drawn made : nat) (present : list (nat * nat)) (st : LoginRace)
    : LoginRace :=
  if who then mkLoginRace (lr_a st) p deleted drawn made present
  else mkLoginRace p (lr_b st) deleted drawn made present.

Definition login_race_step (who : bool) (st : LoginRace)
    : option LoginRace :=
  match lr_phase who st with
  | LBegin =>
      Some (lr_put who LComparing (lr_deleted st) (lr_drawn st) (lr_made st)
              (lr_present st) st)
  | LComparing =>
      Some (lr_put who LDeleting (lr_deleted st) (lr_drawn st) (lr_made st)
              (lr_present st) st)
  | LDeleting =>
      Some (lr_put who LSigning true (lr_drawn st) (lr_made st) [] st)
  | LSigning =>
      Some (lr_put who (LCreating (lr_drawn st)) (lr_deleted st)
              (S (lr_drawn st)) (lr_made st) (lr_present st) st)
  | LCreating k =>
      if Nat.ltb k 2
         && forallb (fun jk => Nat.ltb (snd jk) 2 && negb (Nat.eqb (snd jk) k))
              (lr_present st)
      then Some (lr_put who (LDone k) (lr_deleted st) (lr_drawn st)
                   (S (lr_made st)) (lr_present st ++ [(lr_made st, k)]) st)
      else None
  | LDone k => Some st
  end.

Fixpoint login_race_run (schedule : list bool) (st : LoginRace)
    : option LoginRace :=
  match schedule with
  | [] => Some st
  | who :: rest =>
      match login_race_step who st with
      | Some st1 => login_race_run rest st1
      | None => None
      end
  end.

Definition lr_done (p : LoginPhase) : bool :=
  match p with LDone _ => true | _ => false end.

(** What a schedule of five round trips each leads to: both logins
    succeed; two sessions are stored for the device when both deletions
    came first, and one otherwise. *)
Definition login_race_verdict (schedule : list bool) : bool :=
  match login_race_run schedule login_race_start with
  | Some st =>
      lr_deleted st && lr_done (lr_a st) && lr_done (lr_b st)
      && Nat.eqb (List.length (lr_present st))
           (if deletes_first schedule then 2 else 1)
  | None => false
  end.

Section LoginRaceWorlds.

Variable env : Env.
Variable w : World.
Variable dto : LoginDto.
Variable u : User.

Definition lr_task (p : LoginPhase) : LoginTask :=
  match p with
  | LBegin => LoginBegin dto
  | LComparing => Comparing dto u
  | LDeleting => Deleting dto u
  | LSigning => LoginSigning dto u
  | LCreating k =>
      LoginCreating dto u (jwt_sign env (now w) (user_id u))
        (now w + jwt_refreshToken_expiresIn env)%Z (v4 env (k + entropy w))
  | LDone k =>
      LoginFinished (Ok (public u))
        (jwt_cookies env (jwt_sign env (now w) (user_id u))
           (v4 env (k + entropy w)))
  end.

Definition lr_session (jk : nat * nat) : RefreshSession :=
  mkSession (fst jk + nextSessionId w) u (dto_fingerprint dto)
    (v4 env (snd jk + entropy w))
    (now w + jwt_refreshToken_expiresIn env)%Z.

Definition lr_world (st : LoginRace) : World :=
  mkWorld (users w)
    ((if lr_deleted st
      then sessions (drop_fingerprint (dto_fingerprint dto) w)
      else sessions w)
     ++ map lr_session (lr_present st))
    (nextUserId w)
    (lr_made st + nextSessionId w)
    (now w)
    (lr_drawn st + entropy w).

End LoginRaceWorlds.

(** ** The handlers in closed form *)

Section Equations.

Variable env : Env.

Lemma getJWTs_eq (u : User) (fp : string) (w : World) :
  AuthController.getJWTs env u fp w =
  if collides env w
  then (Err DuplicateToken, [], bump_entropy w)
  else (Ok (mkJWTs (jwt_sign env (now w) (user_id u)) (v4 env (entropy w))),
        [], issue_world env u fp w).
Proof.
  unfold AuthController.getJWTs, collides, bind, Date_now,
    AuthController.jwtService_signAsync, AuthController.uuid_v4,
    RefreshSessionService.create, ret.
  cbn. destruct (existsb _ (sessions w)); reflexivity.
Qed.

Lemma login_eq (dto : LoginDto) (w : World) :
  AuthController.login env dto w =
  match find (UserService.matches (UserService.ByLogin (dto_login dto)))
             (users w) with
  | None => (Err InvalidCredentials, [], w)
  | Some u =>
      if bcrypt_compare env (dto_password dto) (password u)
      then
        let w1 := drop_fingerprint (dto_fingerprint dto) w in
        if collides env w1
        then (Err DuplicateToken, [], bump_entropy w1)
        else (Ok (public u),
              jwt_cookies env (jwt_sign env (now w) (user_id u))
                          (v4 env (entropy w)),
              issue_world env u (dto_fingerprint dto) w1)
      else (Err InvalidCredentials, [], w)
  end.
Proof.
  unfold AuthController.login, bind, UserService.findOne.
  destruct (find _ (users w)) as [u|]; [|reflexivity].
  destruct (bcrypt_compare env _ _); [|reflexivity].
  cbn [negb RefreshSessionService.delete].
  rewrite getJWTs_eq. fold (drop_fingerprint (dto_fingerprint dto) w).
  cbv zeta. destruct (collides env _); reflexivity.
Qed.

Lemma refreshTokens_eq (dto : RefreshTokensDto) (cookie : option string)
    (w : World) :
  AuthController.refreshTokens env dto cookie w =
  if AuthController.falsy cookie then (Err InvalidRefreshToken, [], w)
  else
    match find (RefreshSessionService.matches
                  (RefreshSessionService.mkConditions
                     (Some (rt_fingerprint dto)) cookie)) (sessions w) with
    | None => (Err InvalidRefreshToken, [], w)
    | Some s =>
        if isExpired (now w) s then (Err InvalidRefreshToken, [], w)
        else
          let w1 := drop_session s w in
          if collides env w1
          then (Err DuplicateToken, [], bump_entropy w1)
          else (Ok tt,
                jwt_cookies env (jwt_sign env (now w) (user_id (user s)))
                            (v4 env (entropy w)),
                issue_world env (user s) (rt_fingerprint dto) w1)
    end.
Proof.
  unfold AuthController.refreshTokens.
  destruct (AuthController.falsy cookie); [reflexivity|].
  unfold bind, RefreshSessionService.findOne.
  destruct (find _ (sessions w)) as [s|]; [|reflexivity].
  cbn [Date_now]. fold (isExpired (now w) s).
  destruct (isExpired (now w) s); [reflexivity|].
  cbn [RefreshSessionService.remove].
  rewrite getJWTs_eq. fold (drop_session s w).
  cbv zeta. destruct (collides env _); reflexivity.
Qed.

Lemma register_eq (dto : RegisterDto) (w : World) :
  AuthController.register env dto w =
  match find (UserService.matches (UserService.ByLogin (reg_login dto)))
             (users w) with
  | Some _ => (Err Conflict, [], w)
  | None =>
      let u := mkUser (nextUserId w) (reg_firstName dto) (reg_lastName dto)
                 (reg_login dto)
                 (bcrypt_hash env (reg_password dto)
                    (bcrypt_salt env 10 (entropy w))) in
      let w1 := add_user u w in
      if collides env w1
      then (Err DuplicateToken, [], bump_entropy w1)
      else (Ok (public u),
            jwt_cookies env (jwt_sign env (now w) (user_id u))
                        (v4 env (entropy w1)),
            issue_world env u (reg_fingerprint dto) w1)
  end.
Proof.
  unfold AuthController.register, bind, UserService.findOne.
  destruct (find _ (users w)) as [u|]; [reflexivity|].
  cbn [AuthController.bcrypt_genSalt UserService.create].
  rewrite getJWTs_eq.
  cbv zeta.
  match goal with |- context [collides env ?x] =>
    change x with (add_user (mkUser (nextUserId w) (reg_firstName dto)
      (reg_lastName dto) (reg_login dto)
      (bcrypt_hash env (reg_password dto) (bcrypt_salt env 10 (entropy w)))) w)
  end.
  destruct (collides env _); reflexivity.
Qed.

(** The copy of [getJWTs] in the service does what the controller's
    does. *)
Lemma service_getJWTs_eq (u : User) (fp : string) (w : World) :
  AuthService.getJWTs env u fp w = AuthController.getJWTs env u fp w.
Proof. reflexivity. Qed.

Lemma logout_eq (tok : string) (w : World) :
  AuthController.logout tok w =
  (Ok tt, [mkCookie "access-token" None None;
           mkCookie "refresh-token" None None], drop_token tok w).
Proof. reflexivity. Qed.

End Equations.

(** ** The store invariant *)

Lemma filter_length_filter {A} (p q : A -> bool) (l : list A) :
  List.length (filter q (filter p l)) <= List.length (filter q l).
Proof.
  induction l as [|a l IH]; cbn; [lia|].
  destruct (p a); cbn; destruct (q a); cbn; lia.
Qed.

Lemma NoDup_keys_filter {A K} (keep : A -> bool) (key : A -> K)
    (xs : list A) (Hnd : NoDup (map key xs)) :
  NoDup (map key (filter keep xs)).
Proof.
  induction xs as [|a xs IH]; cbn; [constructor|].
  cbn in Hnd. inversion Hnd as [|? ? Hn Hd]; subst.
  destruct (keep a); cbn; auto.
  constructor; auto.
  intros Hin. apply Hn.
  apply in_map_iff in Hin. destruct Hin as [x [Hx Hin]].
  apply filter_In in Hin. rewrite <- Hx. apply in_map. tauto.
Qed.

Lemma at_most_one_eq {A} (l : list A) (x y : A) :
  List.length l <= 1 -> In x l -> In y l -> x = y.
Proof.
  destruct l as [|a [|b l]]; cbn; intros Hl Hx Hy; try tauto; try lia.
  destruct Hx as [<-|[]], Hy as [<-|[]]. reflexivity.
Qed.

Lemma owned_by_spec (uid : nat) (fp : string) (s : RefreshSession) :
  owned_by uid fp s = true <-> user_id (user s) = uid /\ fingerprint s = fp.
Proof.
  unfold owned_by. rewrite Bool.andb_true_iff, Nat.eqb_eq, String.eqb_eq.
  tauto.
Qed.

Lemma store_ok_filter (p : RefreshSession -> bool) (w : World) :
  store_ok w -> store_ok (set_sessions (filter p) w).
Proof.
  intros [Hu Hs Hsu Hnd Hnt H1]. constructor; cbn.
  - exact Hu.
  - intros s Hin. apply filter_In in Hin. apply Hs. tauto.
  - intros s Hin. apply filter_In in Hin. apply Hsu. tauto.
  - apply NoDup_keys_filter. exact Hnd.
  - apply NoDup_keys_filter. exact Hnt.
  - intros uid fp. unfold sessions_of in *. cbn.
    etransitivity; [apply filter_length_filter | apply H1].
Qed.

Lemma store_ok_bump_entropy (w : World) :
  store_ok w -> store_ok (bump_entropy w).
Proof. intros [Hu Hs Hsu Hnd Hnt H1]. constructor; assumption. Qed.

Lemma store_ok_advance (d : Z) (w : World) :
  store_ok w -> store_ok (advance d w).
Proof. intros [Hu Hs Hsu Hnd Hnt H1]. constructor; assumption. Qed.

Lemma store_ok_add_user (u : User) (w : World) :
  store_ok w -> user_id u = nextUserId w -> store_ok (add_user u w).
Proof.
  intros [Hu Hs Hsu Hnd Hnt H1] Hid. constructor; cbn; auto.
  - intros x Hin. apply in_app_or in Hin. destruct Hin as [Hin|[<-|[]]].
    + specialize (Hu _ Hin). lia.
    + lia.
  - intros s Hin. specialize (Hsu _ Hin). lia.
Qed.

Lemma collides_false (env : Env) (w : World) :
  collides env w = false <->
  forall s, In s (sessions w) -> token s <> v4 env (entropy w).
Proof.
  unfold collides. split.
  - intros H s Hin Heq.
    assert (existsb (fun s => String.eqb (token s) (v4 env (entropy w)))
              (sessions w) = true) as Ht.
    { apply existsb_exists. exists s. split; [exact Hin|].
      apply String.eqb_eq, Heq. }
    congruence.
  - intros H.
    destruct (existsb _ (sessions w)) eqn:E; [|reflexivity].
    apply existsb_exists in E. destruct E as [s [Hin Heq]].
    apply String.eqb_eq in Heq. elim (H s Hin Heq).
Qed.

Lemma store_ok_issue (env : Env) (u : User) (fp : string) (w : World) :
  store_ok w -> user_id u < nextUserId w ->
  sessions_of w (user_id u) fp = [] ->
  collides env w = false ->
  store_ok (issue_world env u fp w).
Proof.
  intros [Hu Hs Hsu Hnd Hnt H1] Hid Hnone Hfresh. constructor; cbn; auto.
  - intros s Hin. apply in_app_or in Hin. destruct Hin as [Hin|[<-|[]]].
    + specialize (Hs _ Hin). lia.
    + cbn. lia.
  - intros s Hin. apply in_app_or in Hin. destruct Hin as [Hin|[<-|[]]].
    + auto.
    + cbn. exact Hid.
  - rewrite map_app. cbn.
    apply NoDup_app; [exact Hnd | repeat constructor; cbn; tauto |].
    intros i Hin [<-|[]].
    apply in_map_iff in Hin. destruct Hin as [s [Hi Hin]].
    specialize (Hs _ Hin). lia.
  - rewrite map_app. cbn.
    apply NoDup_app; [exact Hnt | repeat constructor; cbn; tauto |].
    intros t Hin [<-|[]].
    apply in_map_iff in Hin. destruct Hin as [s [Ht Hin]].
    apply (proj1 (collides_false env w) Hfresh s Hin Ht).
  - intros uid fp'. unfold sessions_of in *. cbn.
    rewrite filter_app, length_app. cbn.
    destruct (owned_by uid fp' (issued env u fp w)) eqn:E; cbn.
    + apply owned_by_spec in E. cbn in E. destruct E as [<- <-].
      rewrite Hnone. cbn. lia.
    + specialize (H1 uid fp'). lia.
Qed.

Lemma matches_spec (fp : option string) (tok : option string)
    (s : RefreshSession) :
  RefreshSessionService.matches (RefreshSessionService.mkConditions fp tok) s
    = true
  <-> (forall x, fp = Some x -> fingerprint s = x)
      /\ (forall x, tok = Some x -> token s = x).
Proof.
  unfold RefreshSessionService.matches, RefreshSessionService.field_ok. cbn.
  rewrite Bool.andb_true_iff.
  destruct fp as [f|], tok as [t|]; rewrite ?String.eqb_eq;
    split; intros H; repeat split; try congruence;
    try (intros x Hx; inversion Hx; subst; tauto);
    try (apply H; reflexivity).
Qed.

Lemma sessions_of_drop_fingerprint (uid : nat) (fp : string) (w : World) :
  sessions_of (drop_fingerprint fp w) uid fp = [].
Proof.
  unfold sessions_of, drop_fingerprint. cbn.
  induction (sessions w) as [|s l IH]; cbn; [reflexivity|].
  unfold RefreshSessionService.matches at 1. cbn.
  rewrite Bool.andb_true_r.
  destruct (String.eqb (fingerprint s) fp) eqn:E; cbn; [exact IH|].
  unfold owned_by at 1. rewrite E, Bool.andb_false_r. exact IH.
Qed.

Lemma sessions_of_drop_session (s : RefreshSession) (w : World) :
  store_ok w -> In s (sessions w) ->
  sessions_of (drop_session s w) (user_id (user s)) (fingerprint s) = [].
Proof.
  intros Hok Hin.
  destruct (sessions_of (drop_session s w) (user_id (user s)) (fingerprint s))
    as [|x l] eqn:E; [reflexivity|exfalso].
  assert (Hx : In x (sessions_of (drop_session s w) (user_id (user s))
                       (fingerprint s))) by (rewrite E; left; reflexivity).
  unfold sessions_of, drop_session in Hx. cbn in Hx.
  apply filter_In in Hx. destruct Hx as [Hx Hown].
  apply filter_In in Hx. destruct Hx as [Hx Hid].
  assert (x = s).
  { apply (at_most_one_eq (sessions_of w (user_id (user s)) (fingerprint s))).
    - apply (ok_one_per_pair _ Hok).
    - apply filter_In. tauto.
    - apply filter_In. split; [exact Hin|]. apply owned_by_spec. tauto. }
  subst x. rewrite Nat.eqb_refl in Hid. discriminate.
Qed.

Lemma sessions_of_add_user (u : User) (fp : string) (w : World) :
  store_ok w -> user_id u = nextUserId w ->
  sessions_of (add_user u w) (user_id u) fp = [].
Proof.
  intros Hok Hid.
  destruct (sessions_of (add_user u w) (user_id u) fp) as [|x l] eqn:E;
    [reflexivity|exfalso].
  assert (Hx : In x (sessions_of (add_user u w) (user_id u) fp))
    by (rewrite E; left; reflexivity).
  unfold sessions_of in Hx. cbn in Hx.
  apply filter_In in Hx. destruct Hx as [Hx Hown].
  apply owned_by_spec in Hown.
  pose proof (ok_session_users _ Hok _ Hx). lia.
Qed.

Section Preservation.

Variable env : Env.

Lemma store_ok_login (dto : LoginDto) (w : World) :
  store_ok w -> store_ok (world (AuthController.login env dto w)).
Proof.
  intros Hok. rewrite login_eq.
  destruct (find _ (users w)) as [u|] eqn:Hf; [|exact Hok].
  destruct (bcrypt_compare env _ _); [|exact Hok].
  cbv zeta. apply find_some in Hf. destruct Hf as [Hin _].
  destruct (collides env _) eqn:Hc; cbn [world snd].
  - apply store_ok_bump_entropy, store_ok_filter, Hok.
  - apply store_ok_issue.
    + apply store_ok_filter, Hok.
    + apply (ok_user_ids _ Hok _ Hin).
    + apply sessions_of_drop_fingerprint.
    + exact Hc.
Qed.

Lemma store_ok_refreshTokens (dto : RefreshTokensDto)
    (cookie : option string) (w : World) :
  store_ok w ->
  store_ok (world (AuthController.refreshTokens env dto cookie w)).
Proof.
  intros Hok. rewrite refreshTokens_eq.
  destruct (AuthController.falsy cookie); [exact Hok|].
  destruct (find _ (sessions w)) as [s|] eqn:Hf; [|exact Hok].
  destruct (isExpired (now w) s); [exact Hok|].
  cbv zeta. apply find_some in Hf. destruct Hf as [Hin Hm].
  apply matches_spec in Hm. destruct Hm as [Hfp _].
  specialize (Hfp _ eq_refl).
  destruct (collides env _) eqn:Hc; cbn [world snd].
  - apply store_ok_bump_entropy, store_ok_filter, Hok.
  - apply store_ok_issue.
    + apply store_ok_filter, Hok.
    + apply (ok_session_users _ Hok _ Hin).
    + rewrite <- Hfp. apply sessions_of_drop_session; assumption.
    + exact Hc.
Qed.

Lemma store_ok_register (dto : RegisterDto) (w : World) :
  store_ok w -> store_ok (world (AuthController.register env dto w)).
Proof.
  intros Hok. rewrite register_eq.
  destruct (find _ (users w)) as [u|]; [exact Hok|].
  cbv zeta.
  destruct (collides env _) eqn:Hc; cbn [world snd].
  - apply store_ok_bump_entropy, store_ok_add_user; [exact Hok|reflexivity].
  - apply store_ok_issue.
    + apply store_ok_add_user; [exact Hok|reflexivity].
    + cbn. lia.
    + apply (sessions_of_add_user
               (mkUser (nextUserId w) _ _ _ _)); [exact Hok|reflexivity].
    + exact Hc.
Qed.

Lemma findUserByAccessToken_world (tok : string) (w : World) :
  world (AuthService.findUserByAccessToken env tok w) = w.
Proof.
  unfold AuthService.findUserByAccessToken, try_catch, bind,
    AuthService.jwtService_verifyAsync.
  destruct (jwt_verify env (now w) tok); reflexivity.
Qed.

Lemma store_ok_handle (ev : Event) (w : World) :
  store_ok w -> store_ok (handle env ev w).
Proof.
  intros Hok. destruct ev; cbn [handle].
  - apply store_ok_register, Hok.
  - apply store_ok_login, Hok.
  - apply store_ok_refreshTokens, Hok.
  - rewrite logout_eq. apply store_ok_filter, Hok.
  - rewrite findUserByAccessToken_world. exact Hok.
  - apply store_ok_advance, Hok.
Qed.

Lemma store_ok_run (evs : list Event) (w : World) :
  store_ok w -> store_ok (run env evs w).
Proof.
  revert w. induction evs as [|ev evs IH]; intros w Hok; [exact Hok|].
  cbn. apply IH, store_ok_handle, Hok.
Qed.

Lemma store_ok_initial (t0 : Z) : store_ok (initial t0).
Proof.
  constructor; cbn; try tauto; try constructor.
  intros; lia.
Qed.

Lemma reachable_store_ok (w : World) : reachable env w -> store_ok w.
Proof.
  intros [t0 [evs ->]]. apply store_ok_run, store_ok_initial.
Qed.

End Preservation.

(** ** Uniqueness of the session of a pair *)

Lemma filter_and_length {A} (p q : A -> bool) (l : list A) :
  List.length (filter (fun x => p x && q x) l) <= List.length (filter p l).
Proof.
  induction l as [|a l IH]; cbn; [lia|].
  destruct (p a); cbn; [destruct (q a); cbn; lia | exact IH].
Qed.

Lemma filter_and_nil {A} (p q : A -> bool) (l : list A) :
  filter p l = [] -> filter (fun x => p x && q x) l = [].
Proof.
  intros H. pose proof (filter_and_length p q l) as Hl.
  rewrite H in Hl. cbn in Hl.
  destruct (filter (fun x => p x && q x) l); [reflexivity | cbn in Hl; lia].
Qed.

Lemma active_after_issue (env : Env) (u : User) (fp : string) (w : World) :
  (0 < jwt_refreshToken_expiresIn env)%Z ->
  sessions_of w (user_id u) fp = [] ->
  active_sessions (issue_world env u fp w) (user_id u) fp
    = [issued env u fp w].
Proof.
  intros Hpos Hnone. unfold active_sessions. cbn.
  rewrite filter_app.
  rewrite (filter_and_nil _ _ _ Hnone). cbn.
  unfold owned_by, isExpired. cbn.
  rewrite Nat.eqb_refl, String.eqb_refl. cbn.
  destruct (Z.geb_spec (now w - (now w + jwt_refreshToken_expiresIn env)) 0);
    [lia | reflexivity].
Qed.

(** ** Rotation *)

Lemma NoDup_map_inj {A B} (f : A -> B) (l : list A) (x y : A) :
  NoDup (map f l) -> In x l -> In y l -> f x = f y -> x = y.
Proof.
  induction l as [|a l IH]; cbn; intros Hnd Hx Hy Hf; [tauto|].
  inversion Hnd as [|? ? Hn Hd]; subst.
  destruct Hx as [<-|Hx], Hy as [<-|Hy]; auto.
  - elim Hn. rewrite Hf. apply in_map, Hy.
  - elim Hn. rewrite <- Hf. apply in_map, Hx.
Qed.

Lemma find_absent {A} (p : A -> bool) (l : list A) :
  (forall x, In x l -> p x = false) -> find p l = None.
Proof.
  induction l as [|a l IH]; cbn; intros H; [reflexivity|].
  rewrite (H a (or_introl eq_refl)). apply IH. intros x Hx. apply H. tauto.
Qed.

(** After the matched session is dropped and the new one issued, no stored
    session carries the consumed token any more. *)
Lemma consumed_token_gone (env : Env) (s : RefreshSession) (u : User)
    (fp fp' : string) (w : World) :
  store_ok w -> In s (sessions w) ->
  v4 env (entropy w) <> token s ->
  findSession (issue_world env u fp (drop_session s w)) fp' (token s) = None.
Proof.
  intros Hok Hin Hnew. unfold findSession. apply find_absent.
  intros x Hx. cbn in Hx. apply in_app_or in Hx.
  destruct (RefreshSessionService.matches _ x) eqn:Hm; [exfalso|reflexivity].
  apply matches_spec in Hm. destruct Hm as [_ Ht]. specialize (Ht _ eq_refl).
  destruct Hx as [Hx|[<-|[]]].
  - apply filter_In in Hx. destruct Hx as [Hx Hid].
    assert (x = s)
      by (apply (NoDup_map_inj token (sessions w));
          [apply (ok_tokens_nodup _ Hok) | assumption..]).
    subst x. rewrite Nat.eqb_refl in Hid. discriminate.
  - cbn in Ht. apply Hnew. exact Ht.
Qed.

(** C2.  A refresh that succeeds found a session for the presented token
    and fingerprint; that session is removed from the store before
    [getJWTs] runs, [getJWTs] stores one new session for the same user and
    the same fingerprint whose token is the one sent back, and (the new
    token being a new value) presenting the consumed token again, with any
    fingerprint and at any later time, fails with [InvalidRefreshToken]. *)
Theorem refresh_rotates_token (env : Env) (w w' : World)
    (dto : RefreshTokensDto) (tok : string) (c : list Cookie) :
  reachable env w ->
  v4 env (entropy w) <> tok ->
  AuthController.refreshTokens env dto (Some tok) w = (Ok tt, c, w') ->
  exists s jwts,
    findSession w (rt_fingerprint dto) tok = Some s
    /\ ~ In s (sessions (drop_session s w))
    /\ AuthController.getJWTs env (user s) (rt_fingerprint dto)
         (drop_session s w) = (Ok jwts, [], w')
    /\ c = jwt_cookies env (accessToken jwts) (refreshToken jwts)
    /\ sessions w' =
         sessions (drop_session s w)
         ++ [mkSession (nextSessionId w) (user s) (rt_fingerprint dto)
               (refreshToken jwts)
               (now w + jwt_refreshToken_expiresIn env)%Z]
    /\ ~ In s (sessions w')
    /\ (forall dto' ms,
          result (AuthController.refreshTokens env dto' (Some tok)
                    (advance (Z.of_N ms) w')) = Err InvalidRefreshToken).
Proof.
  intros Hreach Hnew. pose proof (reachable_store_ok env w Hreach) as Hok.
  rewrite refreshTokens_eq.
  destruct (AuthController.falsy (Some tok)); [discriminate|].
  destruct (find _ (sessions w)) as [s|] eqn:Hf; [|discriminate].
  destruct (isExpired (now w) s); [discriminate|]. cbv zeta.
  destruct (collides env (drop_session s w)) eqn:Hc; [discriminate|].
  intros H. inversion H; subst c w'; clear H.
  pose proof (find_some _ _ Hf) as [Hin Hm].
  apply matches_spec in Hm. destruct Hm as [_ Ht]. specialize (Ht _ eq_refl).
  assert (Hgone : ~ In s (sessions (drop_session s w))).
  { cbn. intros Hx. apply filter_In in Hx. destruct Hx as [_ Hx].
    rewrite Nat.eqb_refl in Hx. discriminate. }
  exists s, (mkJWTs (jwt_sign env (now w) (user_id (user s)))
                    (v4 env (entropy w))).
  split; [exact Hf|]. split; [exact Hgone|].
  split; [rewrite getJWTs_eq, Hc; reflexivity|].
  split; [reflexivity|]. split; [reflexivity|]. split.
  - cbn. intros Hx. apply in_app_or in Hx. destruct Hx as [Hx|[Hx|[]]].
    + apply Hgone, Hx.
    + pose proof (ok_session_ids _ Hok _ Hin) as Hlt.
      rewrite <- Hx in Hlt. cbn in Hlt. lia.
  - intros dto' ms. rewrite refreshTokens_eq.
    destruct (AuthController.falsy (Some tok)); [reflexivity|].
    pose proof (consumed_token_gone env s (user s) (rt_fingerprint dto)
                  (rt_fingerprint dto') w Hok Hin) as Hnone.
    rewrite Ht in Hnone. specialize (Hnone Hnew).
    unfold findSession in Hnone. cbn [advance sessions].
    cbn [issue_world sessions] in Hnone. cbn [issue_world sessions].
    rewrite Hnone. reflexivity.
Qed.

Lemma refresh_rotates_token_witness :
  reachable env0 one_user
  /\ v4 env0 (entropy one_user) <> "rt-1"
  /\ result (AuthController.refreshTokens env0 (mkRefreshTokensDto "dev1")
               (Some "rt-1") one_user) = Ok tt
  /\ (forall dto' ms,
        result (AuthController.refreshTokens env0 dto' (Some "rt-1")
                  (advance (Z.of_N ms)
                     (world (AuthController.refreshTokens env0
                               (mkRefreshTokensDto "dev1") (Some "rt-1")
                               one_user))))
        = Err InvalidRefreshToken).
Proof.
  assert (Hr : reachable env0 one_user)
    by (exists 0%Z, [Register alice_dev1]; reflexivity).
  assert (Hn : v4 env0 (entropy one_user) <> "rt-1")
    by (intros H; vm_compute in H; discriminate).
  split; [exact Hr|]. split; [exact Hn|]. split; [reflexivity|].
  destruct (refresh_rotates_token env0 one_user
              (world (AuthController.refreshTokens env0
                        (mkRefreshTokensDto "dev1") (Some "rt-1") one_user))
              (mkRefreshTokensDto "dev1") "rt-1"
              (cookies (AuthController.refreshTokens env0
                          (mkRefreshTokensDto "dev1") (Some "rt-1") one_user))
              Hr Hn eq_refl)
    as [s [jwts [_ [_ [_ [_ [_ [_ Hreplay]]]]]]]].
  exact Hreplay.
Defined.

(** ** Rejection of a refresh *)

Lemma isExpired_spec (t : Z) (s : RefreshSession) :
  isExpired t s = true <-> (expiresAt s <= t)%Z.
Proof.
  unfold isExpired. destruct (Z.geb_spec (t - expiresAt s) 0); split; intros;
    try reflexivity; try discriminate; lia.
Qed.

Lemma matching_find (w : World) (fp tok : string) :
  find (RefreshSessionService.matches
          (RefreshSessionService.mkConditions (Some fp) (Some tok)))
       (sessions w) = matching w fp (Some tok).
Proof. reflexivity. Qed.

Lemma matching_empty (w : World) (fp : string) :
  tokens_nonempty w -> matching w fp (Some "") = None.
Proof.
  intros Hne. unfold matching, findSession. apply find_absent.
  intros x Hx.
  destruct (RefreshSessionService.matches _ x) eqn:Hm; [exfalso|reflexivity].
  apply matches_spec in Hm. destruct Hm as [_ Ht].
  apply (Hne x Hx). apply Ht. reflexivity.
Qed.

(** C3.  A refresh fails with [InvalidRefreshToken] exactly when no stored
    session matches both the presented token and the fingerprint, or the
    matched session's [expiresAt] has been reached.  In particular a token
    that is stored only under other fingerprints is rejected, a refresh at
    or after [expiresAt] fails and leaves the world as it was, and a
    refresh one millisecond before [expiresAt] succeeds (the new token
    being a new value). *)
Theorem refresh_rejected_iff (env : Env) (w : World)
    (dto : RefreshTokensDto) (cookie : option string) :
  tokens_nonempty w ->
  (result (AuthController.refreshTokens env dto cookie w)
     = Err InvalidRefreshToken
   <-> matching w (rt_fingerprint dto) cookie = None
       \/ exists s, matching w (rt_fingerprint dto) cookie = Some s
                    /\ (expiresAt s <= now w)%Z)
  /\ (forall tok,
        cookie = Some tok ->
        (forall s, In s (sessions w) -> token s = tok ->
                   fingerprint s <> rt_fingerprint dto) ->
        result (AuthController.refreshTokens env dto cookie w)
          = Err InvalidRefreshToken)
  /\ (forall s,
        matching w (rt_fingerprint dto) cookie = Some s ->
        (expiresAt s <= now w)%Z ->
        AuthController.refreshTokens env dto cookie w
          = (Err InvalidRefreshToken, [], w))
  /\ (forall s,
        matching w (rt_fingerprint dto) cookie = Some s ->
        now w = (expiresAt s - 1)%Z ->
        collides env (drop_session s w) = false ->
        result (AuthController.refreshTokens env dto cookie w) = Ok tt).
Proof.
  intros Hne.
  assert (Hsome : forall s, matching w (rt_fingerprint dto) cookie = Some s ->
            AuthController.refreshTokens env dto cookie w =
            if isExpired (now w) s then (Err InvalidRefreshToken, [], w)
            else if collides env (drop_session s w)
                 then (Err DuplicateToken, [], bump_entropy (drop_session s w))
                 else (Ok tt,
                       jwt_cookies env
                         (jwt_sign env (now w) (user_id (user s)))
                         (v4 env (entropy w)),
                       issue_world env (user s) (rt_fingerprint dto)
                         (drop_session s w))).
  { intros s Hs. rewrite refreshTokens_eq.
    destruct cookie as [tok|]; [|discriminate]. cbn [AuthController.falsy].
    destruct (String.eqb_spec tok "") as [->|_].
    - rewrite matching_empty in Hs by exact Hne. discriminate.
    - rewrite matching_find, Hs. reflexivity. }
  assert (Hnone : matching w (rt_fingerprint dto) cookie = None ->
            AuthController.refreshTokens env dto cookie w =
            (Err InvalidRefreshToken, [], w)).
  { intros Hn. rewrite refreshTokens_eq.
    destruct cookie as [tok|]; [|reflexivity]. cbn [AuthController.falsy].
    destruct (String.eqb tok ""); [reflexivity|].
    rewrite matching_find, Hn. reflexivity. }
  split; [|split; [|split]].
  - destruct (matching w (rt_fingerprint dto) cookie) as [s|] eqn:Hm.
    + rewrite (Hsome s eq_refl).
      destruct (isExpired (now w) s) eqn:He.
      * apply isExpired_spec in He. split; [|reflexivity].
        intros _. right. exists s. tauto.
      * split.
        -- destruct (collides env _); discriminate.
        -- intros [H|[s' [H Hexp]]]; [discriminate|].
           inversion H; subst s'. apply isExpired_spec in Hexp. congruence.
    + rewrite (Hnone eq_refl). split; [tauto|reflexivity].
  - intros tok -> Hother. rewrite Hnone; [reflexivity|].
    unfold matching, findSession. apply find_absent. intros x Hx.
    destruct (RefreshSessionService.matches _ x) eqn:Hm; [exfalso|reflexivity].
    apply matches_spec in Hm. destruct Hm as [Hf Ht].
    apply (Hother x Hx (Ht _ eq_refl) (Hf _ eq_refl)).
  - intros s Hs Hexp. rewrite (Hsome s Hs).
    apply isExpired_spec in Hexp. rewrite Hexp. reflexivity.
  - intros s Hs Hnow Hc. rewrite (Hsome s Hs), Hc.
    destruct (isExpired (now w) s) eqn:He; [|reflexivity].
    apply isExpired_spec in He. lia.
Qed.

Lemma refresh_rejected_iff_witness :
  tokens_nonempty (advance 9 one_user)
  /\ result (AuthController.refreshTokens env0 (mkRefreshTokensDto "dev1")
               (Some "rt-1") (advance 9 one_user)) = Ok tt
  /\ result (AuthController.refreshTokens env0 (mkRefreshTokensDto "dev1")
               (Some "rt-1") (advance 10 one_user)) = Err InvalidRefreshToken
  /\ result (AuthController.refreshTokens env0 (mkRefreshTokensDto "dev2")
               (Some "rt-1") (advance 9 one_user)) = Err InvalidRefreshToken.
Proof.
  assert (Hne : forall d, tokens_nonempty (advance d one_user)).
  { intros d s [<-|[]]. cbn. discriminate. }
  split; [apply Hne|].
  split; [|split].
  - apply (proj2 (proj2 (proj2
      (refresh_rejected_iff env0 (advance 9 one_user)
         (mkRefreshTokensDto "dev1") (Some "rt-1") (Hne 9%Z))))
      (mkSession 0 (mkUser 0 "Alice" "A" "alice" "$2b$10$secret-a")
         "dev1" "rt-1" 10)); reflexivity.
  - apply (proj1 (refresh_rejected_iff env0 (advance 10 one_user)
      (mkRefreshTokensDto "dev1") (Some "rt-1") (Hne 10%Z))).
    right. eexists. split; [reflexivity|]. cbn. lia.
  - apply (proj1 (proj2 (refresh_rejected_iff env0 (advance 9 one_user)
      (mkRefreshTokensDto "dev2") (Some "rt-1") (Hne 9%Z))) "rt-1" eq_refl).
    intros s [<-|[]] _. cbn. discriminate.
Defined.

(** ** Login failures *)

(** C4.  A login with a login name nobody has and a login with an existing
    login name but a password that does not verify end in the same
    outcome: the same [InvalidCredentials] exception, no cookie written,
    and the world untouched. *)
Theorem login_failures_indistinguishable (env : Env) (w : World)
    (unknown wrong : LoginDto) (u : User) :
  find (UserService.matches (UserService.ByLogin (dto_login unknown)))
       (users w) = None ->
  find (UserService.matches (UserService.ByLogin (dto_login wrong)))
       (users w) = Some u ->
  bcrypt_compare env (dto_password wrong) (password u) = false ->
  AuthController.login env unknown w = AuthController.login env wrong w
  /\ AuthController.login env unknown w = (Err InvalidCredentials, [], w).
Proof.
  intros Hnone Hsome Hpw. rewrite !login_eq, Hnone, Hsome, Hpw.
  split; reflexivity.
Qed.

Lemma login_failures_indistinguishable_witness :
  AuthController.login env0 (mkLoginDto "carol" "secret-a" "dev1") one_user
  = AuthController.login env0 (mkLoginDto "alice" "guess" "dev1") one_user
  /\ AuthController.login env0 (mkLoginDto "carol" "secret-a" "dev1") one_user
     = (Err InvalidCredentials, [], one_user).
Proof.
  apply (login_failures_indistinguishable env0 one_user
           (mkLoginDto "carol" "secret-a" "dev1")
           (mkLoginDto "alice" "guess" "dev1")
           (mkUser 0 "Alice" "A" "alice" "$2b$10$secret-a"));
    reflexivity.
Defined.

(** ** Expired sessions *)

(** C5, as the claim states it, fails: the refresh that finds Alice's
    session expired (time 11, [expiresAt] 10) is rejected and the session
    is still stored afterwards. *)
Lemma expired_session_stays_stored :
  let w := advance 11 one_user in
  let s := mkSession 0 (mkUser 0 "Alice" "A" "alice" "$2b$10$secret-a")
             "dev1" "rt-1" 10 in
  let after := AuthController.refreshTokens env0 (mkRefreshTokensDto "dev1")
                 (Some "rt-1") w in
  findSession w "dev1" "rt-1" = Some s
  /\ isExpired (now w) s = true
  /\ result after = Err InvalidRefreshToken
  /\ In s (sessions (world after))
  /\ findSession (world after) "dev1" "rt-1" = Some s.
Proof.
  cbv zeta. repeat split; try reflexivity. left. reflexivity.
Qed.

(** C5, amended.  Expiry is a judgment made at lookup time by comparing
    [expiresAt] with the clock; a refresh that finds the matched session
    expired fails with [InvalidRefreshToken], writes no cookie and leaves
    the world, and with it the expired session, as it was. *)
Theorem expired_refresh_changes_nothing (env : Env) (w : World)
    (dto : RefreshTokensDto) (cookie : option string) (s : RefreshSession) :
  matching w (rt_fingerprint dto) cookie = Some s ->
  isExpired (now w) s = true ->
  AuthController.refreshTokens env dto cookie w
    = (Err InvalidRefreshToken, [], w)
  /\ In s (sessions (world (AuthController.refreshTokens env dto cookie w))).
Proof.
  intros Hm He.
  assert (Heq : AuthController.refreshTokens env dto cookie w
                = (Err InvalidRefreshToken, [], w)).
  { rewrite refreshTokens_eq.
    destruct (AuthController.falsy cookie); [reflexivity|].
    destruct cookie as [tok|]; [|discriminate].
    rewrite matching_find, Hm, He. reflexivity. }
  split; [exact Heq|]. rewrite Heq. cbn.
  destruct cookie as [tok|]; [|discriminate].
  apply (find_some _ _ Hm).
Qed.

Lemma expired_refresh_changes_nothing_witness :
  AuthController.refreshTokens env0 (mkRefreshTokensDto "dev1")
    (Some "rt-1") (advance 10 one_user)
  = (Err InvalidRefreshToken, [], advance 10 one_user).
Proof.
  apply (expired_refresh_changes_nothing env0 (advance 10 one_user)
           (mkRefreshTokensDto "dev1") (Some "rt-1")
           (mkSession 0 (mkUser 0 "Alice" "A" "alice" "$2b$10$secret-a")
              "dev1" "rt-1" 10));
    reflexivity.
Defined.

(** ** Logout *)

Lemma filter_idem {A} (p : A -> bool) (l : list A) :
  filter p (filter p l) = filter p l.
Proof.
  induction l as [|a l IH]; cbn; [reflexivity|].
  destruct (p a) eqn:E; cbn; rewrite ?E, IH; reflexivity.
Qed.

Lemma filter_all {A} (p : A -> bool) (l : list A) :
  (forall x, In x l -> p x = true) -> filter p l = l.
Proof.
  induction l as [|a l IH]; cbn; intros H; [reflexivity|].
  rewrite (H a (or_introl eq_refl)), IH; [reflexivity|].
  intros x Hx. apply H. tauto.
Qed.

Lemma logout_world (tok : string) (w : World) :
  world (AuthController.logout tok w) = drop_token tok w.
Proof. reflexivity. Qed.

Lemma drop_token_sessions (tok : string) (w : World) :
  sessions (drop_token tok w)
  = filter (fun s => negb (String.eqb (token s) tok)) (sessions w).
Proof. reflexivity. Qed.

(** C6.  Logout never throws and always answers with the same two cleared
    cookies, whatever the token and the store; it removes exactly the
    sessions whose token is the presented one, whatever their fingerprint;
    without such a session the world is left as it was; a second logout
    with the same token repeats the outcome of the first; and after a
    logout every refresh presenting that token is rejected with
    [InvalidRefreshToken]. *)
Theorem logout_idempotent_total (env : Env) (w : World) (tok : string) :
  (forall tok' w',
     result (AuthController.logout tok w) = Ok tt
     /\ result (AuthController.logout tok' w') = Ok tt
     /\ cookies (AuthController.logout tok w)
        = cookies (AuthController.logout tok' w'))
  /\ (forall s, In s (sessions (world (AuthController.logout tok w)))
                <-> In s (sessions w) /\ token s <> tok)
  /\ ((forall s, In s (sessions w) -> token s <> tok) ->
      world (AuthController.logout tok w) = w)
  /\ AuthController.logout tok (world (AuthController.logout tok w))
     = AuthController.logout tok w
  /\ (forall dto,
        AuthController.refreshTokens env dto (Some tok)
          (world (AuthController.logout tok w))
        = (Err InvalidRefreshToken, [], world (AuthController.logout tok w))).
Proof.
  split; [|split; [|split; [|split]]].
  - intros tok' w'. repeat split.
  - intros s. rewrite logout_world, drop_token_sessions, filter_In.
    rewrite Bool.negb_true_iff, String.eqb_neq. tauto.
  - intros Hnone. rewrite logout_world.
    assert (sessions (drop_token tok w) = sessions w) as Hs.
    { rewrite drop_token_sessions. apply filter_all. intros x Hx.
      apply Bool.negb_true_iff, String.eqb_neq, Hnone, Hx. }
    destruct w. cbn in Hs |- *. unfold drop_token, set_sessions. cbn.
    f_equal. exact Hs.
  - rewrite !logout_eq. f_equal. unfold drop_token, set_sessions. cbn.
    rewrite filter_idem. reflexivity.
  - intros dto. rewrite refreshTokens_eq, logout_world.
    destruct (AuthController.falsy (Some tok)); [reflexivity|].
    assert (find (RefreshSessionService.matches
                    (RefreshSessionService.mkConditions
                       (Some (rt_fingerprint dto)) (Some tok)))
                 (sessions (drop_token tok w)) = None) as ->; [|reflexivity].
    apply find_absent. intros x Hx. rewrite drop_token_sessions in Hx.
    apply filter_In in Hx. destruct Hx as [_ Hx].
    apply Bool.negb_true_iff, String.eqb_neq in Hx.
    destruct (RefreshSessionService.matches _ x) eqn:Hm; [|reflexivity].
    apply matches_spec in Hm. destruct Hm as [_ Ht].
    specialize (Ht _ eq_refl). congruence.
Qed.

Lemma logout_idempotent_total_witness :
  (forall s, In s (sessions two_users) -> token s <> "rt-9")
  /\ world (AuthController.logout "rt-9" two_users) = two_users
  /\ map token (sessions (world (AuthController.logout "rt-1" two_users)))
     = ["rt-3"]
  /\ cookies (AuthController.logout "rt-9" two_users)
     = cookies (AuthController.logout "rt-1" two_users).
Proof.
  assert (Hnone : forall s, In s (sessions two_users) -> token s <> "rt-9").
  { intros s [<-|[<-|[]]]; cbn; discriminate. }
  split; [exact Hnone|].
  split; [|split; reflexivity].
  apply (proj1 (proj2 (proj2
           (logout_idempotent_total env0 two_users "rt-9")))).
  exact Hnone.
Defined.

(** ** Identity resolution *)

(** C7.  [findUserByAccessToken] never throws: for every token it returns
    a value and leaves the world alone.  When the verification of the
    token fails (and [verifyAsync] throws), the value is [null]; when it
    succeeds, the value is what the user lookup by identifier finds. *)
Theorem resolve_identity_total (env : Env) (w : World) (tok : string) :
  (exists r, AuthService.findUserByAccessToken env tok w = (Ok r, [], w))
  /\ (jwt_verify env (now w) tok = None ->
      (exists e, result (AuthService.jwtService_verifyAsync env tok w) = Err e)
      /\ AuthService.findUserByAccessToken env tok w = (Ok None, [], w))
  /\ (forall userId,
        jwt_verify env (now w) tok = Some userId ->
        AuthService.findUserByAccessToken env tok w
        = (Ok (find (UserService.matches (UserService.WhereId userId))
                    (users w)), [], w)).
Proof.
  unfold AuthService.findUserByAccessToken, try_catch, bind,
    AuthService.jwtService_verifyAsync, UserService.findOne, ret, result.
  destruct (jwt_verify env (now w) tok) as [userId|]; cbn.
  - split; [eexists; reflexivity|].
    split; [discriminate|]. intros ? [= <-]. reflexivity.
  - split; [eexists; reflexivity|].
    split; [|discriminate]. intros _. split; [eexists|]; reflexivity.
Qed.

Lemma resolve_identity_total_witness :
  jwt_verify env0 (now one_user) "tampered" = None
  /\ AuthService.findUserByAccessToken env0 "tampered" one_user
     = (Ok None, [], one_user).
Proof.
  split; [reflexivity|].
  apply (proj1 (proj2 (resolve_identity_total env0 one_user "tampered"))).
  reflexivity.
Defined.

(** ** The cleanup of login *)

Lemma fingerprint_matches (fp : string) (s : RefreshSession) :
  RefreshSessionService.matches
    (RefreshSessionService.mkConditions (Some fp) None) s
  = String.eqb (fingerprint s) fp.
Proof.
  unfold RefreshSessionService.matches. cbn. apply Bool.andb_true_r.
Qed.

Lemma drop_fingerprint_sessions (fp : string) (w : World) :
  sessions (drop_fingerprint fp w)
  = filter (fun s => negb (String.eqb (fingerprint s) fp)) (sessions w).
Proof.
  unfold drop_fingerprint, set_sessions. cbn [sessions].
  apply filter_ext. intros s. rewrite fingerprint_matches. reflexivity.
Qed.

(** C8.  A login that succeeds leaves in the store the sessions whose
    fingerprint differs from the supplied one, unchanged and in their
    order, followed by the one new session: every session stored under the
    supplied fingerprint is gone, whoever its user is. *)
Theorem login_drops_fingerprint (env : Env) (w w' : World) (dto : LoginDto)
    (p : UserPublicData) (c : list Cookie) :
  reachable env w ->
  AuthController.login env dto w = (Ok p, c, w') ->
  (exists n,
     sessions w'
     = filter (fun s => negb (String.eqb (fingerprint s) (dto_fingerprint dto)))
              (sessions w) ++ [n]
     /\ fingerprint n = dto_fingerprint dto
     /\ public (user n) = p)
  /\ (forall s, In s (sessions w) ->
                fingerprint s = dto_fingerprint dto -> ~ In s (sessions w'))
  /\ (forall s, In s (sessions w) ->
                fingerprint s <> dto_fingerprint dto -> In s (sessions w')).
Proof.
  intros Hreach. pose proof (reachable_store_ok env w Hreach) as Hok.
  rewrite login_eq.
  destruct (find _ (users w)) as [u|]; [|discriminate].
  destruct (bcrypt_compare env _ _); [|discriminate]. cbv zeta.
  destruct (collides env _); [discriminate|].
  intros H. inversion H; subst p c w'; clear H.
  cbn [issue_world sessions]. rewrite drop_fingerprint_sessions.
  split; [|split].
  - eexists. split; [reflexivity|]. split; reflexivity.
  - intros s Hin Hfp Hx. apply in_app_or in Hx. destruct Hx as [Hx|[Hx|[]]].
    + apply filter_In in Hx. destruct Hx as [_ Hx].
      apply Bool.negb_true_iff, String.eqb_neq in Hx. contradiction.
    + pose proof (ok_session_ids _ Hok _ Hin) as Hlt.
      rewrite <- Hx in Hlt. cbn in Hlt. lia.
  - intros s Hin Hfp. apply in_or_app. left. apply filter_In.
    split; [exact Hin|]. apply Bool.negb_true_iff, String.eqb_neq, Hfp.
Qed.

Lemma login_drops_fingerprint_witness :
  let after := AuthController.login env0
                 (mkLoginDto "bob" "secret-b" "dev1") two_users in
  reachable env0 two_users
  /\ map (fun s => (user_login (user s), fingerprint s)) (sessions two_users)
     = [("alice", "dev1"); ("bob", "dev1")]
  /\ map (fun s => (user_login (user s), fingerprint s))
         (sessions (world after))
     = [("bob", "dev1")]
  /\ (forall s, In s (sessions two_users) -> fingerprint s = "dev1" ->
                ~ In s (sessions (world after))).
Proof.
  cbv zeta.
  assert (Hr : reachable env0 two_users)
    by (exists 0%Z, [Register alice_dev1; Register bob_dev1]; reflexivity).
  split; [exact Hr|]. split; [reflexivity|]. split; [reflexivity|].
  apply (login_drops_fingerprint env0 two_users _
           (mkLoginDto "bob" "secret-b" "dev1") _ _ Hr eq_refl).
Defined.

(** ** A colliding refresh token *)

(** C9, as the claim states it, fails: with a [v4()] that draws the stored
    value again, Alice's login from a second device ends with the
    [DuplicateToken] of [create], after a single draw and with no session
    stored for the device. *)
Lemma duplicate_token_surfaces :
  let w := run env_stuck [Register alice_dev1] (initial 0) in
  let after := AuthController.login env_stuck
                 (mkLoginDto "alice" "secret-a" "dev2") w in
  map token (sessions w) = ["rt-0"]
  /\ result after = Err DuplicateToken
  /\ entropy (world after) = S (entropy w)
  /\ sessions (world after) = sessions w.
Proof. cbv zeta. repeat split; reflexivity. Qed.

(** C9, amended.  When [create] reports [DuplicateToken] for the drawn
    token, [getJWTs] does not retry: it has made its one draw, stores no
    session, and throws [DuplicateToken]; register, login and refresh let
    that exception pass to their caller, write no cookie, and keep what
    they did to the store before issuing. *)
Theorem duplicate_token_propagates (env : Env) (w : World) :
  (forall u fp,
     collides env w = true ->
     AuthController.getJWTs env u fp w
     = (Err DuplicateToken, [], bump_entropy w))
  /\ (forall dto u,
        find (UserService.matches (UserService.ByLogin (dto_login dto)))
             (users w) = Some u ->
        bcrypt_compare env (dto_password dto) (password u) = true ->
        collides env (drop_fingerprint (dto_fingerprint dto) w) = true ->
        AuthController.login env dto w
        = (Err DuplicateToken, [],
           bump_entropy (drop_fingerprint (dto_fingerprint dto) w)))
  /\ (forall dto tok s,
        tok <> "" ->
        findSession w (rt_fingerprint dto) tok = Some s ->
        isExpired (now w) s = false ->
        collides env (drop_session s w) = true ->
        AuthController.refreshTokens env dto (Some tok) w
        = (Err DuplicateToken, [], bump_entropy (drop_session s w)))
  /\ (forall dto,
        find (UserService.matches (UserService.ByLogin (reg_login dto)))
             (users w) = None ->
        collides env (add_user (new_user env dto w) w) = true ->
        AuthController.register env dto w
        = (Err DuplicateToken, [],
           bump_entropy (add_user (new_user env dto w) w))).
Proof.
  split; [|split; [|split]].
  - intros u fp Hc. rewrite getJWTs_eq, Hc. reflexivity.
  - intros dto u Hf Hpw Hc. rewrite login_eq, Hf, Hpw. cbv zeta.
    rewrite Hc. reflexivity.
  - intros dto tok s Hne Hf He Hc. rewrite refreshTokens_eq.
    cbn [AuthController.falsy].
    destruct (String.eqb_spec tok ""); [contradiction|].
    unfold findSession in Hf. rewrite Hf, He. cbv zeta. rewrite Hc.
    reflexivity.
  - intros dto Hf Hc. rewrite register_eq, Hf. cbv zeta.
    fold (new_user env dto w). rewrite Hc. reflexivity.
Qed.

Lemma duplicate_token_propagates_witness :
  let w := run env_stuck [Register alice_dev1] (initial 0) in
  collides env_stuck w = true
  /\ AuthController.getJWTs env_stuck
       (mkUser 0 "Alice" "A" "alice" "$2b$10$secret-a") "dev2" w
     = (Err DuplicateToken, [], bump_entropy w).
Proof.
  cbv zeta. split; [reflexivity|].
  apply (proj1 (duplicate_token_propagates env_stuck
                  (run env_stuck [Register alice_dev1] (initial 0)))).
  reflexivity.
Defined.

(** ** Overlapping refresh requests *)

Section Race.

Variable env : Env.

Lemma step_begin (dto : RefreshTokensDto) (tok : string)
    (s : RefreshSession) (w : World) :
  tok <> "" ->
  findSession w (rt_fingerprint dto) tok = Some s ->
  isExpired (now w) s = false ->
  task_step env (Begin dto (Some tok)) w = (Removing dto s, w).
Proof.
  intros Hne Hf He. unfold task_step, RefreshSessionService.findOne.
  cbn [AuthController.falsy].
  destruct (String.eqb_spec tok ""); [contradiction|].
  unfold findSession in Hf. rewrite Hf.
  unfold isExpired in He. rewrite He. reflexivity.
Qed.

Lemma step_begin_gone (dto : RefreshTokensDto) (tok : string) (w : World) :
  findSession w (rt_fingerprint dto) tok = None ->
  task_step env (Begin dto (Some tok)) w
  = (Finished (Err InvalidRefreshToken) [], w).
Proof.
  intros Hf. unfold task_step, RefreshSessionService.findOne.
  destruct (AuthController.falsy (Some tok)); [reflexivity|].
  unfold findSession in Hf. rewrite Hf. reflexivity.
Qed.

Lemma step_removing (dto : RefreshTokensDto) (s : RefreshSession)
    (w : World) :
  task_step env (Removing dto s) w = (Signing dto s, drop_session s w).
Proof. reflexivity. Qed.

Lemma step_signing (dto : RefreshTokensDto) (s : RefreshSession)
    (w : World) :
  task_step env (Signing dto s) w
  = (Creating dto s (jwt_sign env (now w) (user_id (user s)))
       (now w + jwt_refreshToken_expiresIn env)%Z (v4 env (entropy w)),
     bump_entropy w).
Proof. reflexivity. Qed.

(** Served alone, the task does what the handler does. *)
Lemma serve_alone_refreshTokens (dto : RefreshTokensDto)
    (cookie : option string) (w : World) :
  serve_alone env (Begin dto cookie) w
  = (Finished (result (AuthController.refreshTokens env dto cookie w))
       (cookies (AuthController.refreshTokens env dto cookie w)),
     world (AuthController.refreshTokens env dto cookie w)).
Proof.
  rewrite refreshTokens_eq. unfold serve_alone.
  unfold task_step at 1. unfold RefreshSessionService.findOne.
  destruct (AuthController.falsy cookie); [reflexivity|].
  destruct (find _ (sessions w)) as [s|]; [|reflexivity].
  fold (isExpired (now w) s).
  destruct (isExpired (now w) s); [reflexivity|].
  rewrite step_removing, step_signing. cbv zeta.
  unfold task_step, RefreshSessionService.create, collides.
  cbn [bump_entropy sessions].
  destruct (existsb _ (sessions (drop_session s w))); reflexivity.
Qed.

End Race.


(** ** Registration *)

Lemma login_matches (l : string) (u : User) :
  UserService.matches (UserService.ByLogin l) u = true <-> user_login u = l.
Proof. cbn. apply String.eqb_eq. Qed.

(** X1.  [register] answers [Conflict] exactly when a stored user already
    has the requested login, and then it has written no cookie and left
    the world as it was: no user, no session, no random draw. *)
Theorem register_conflict_iff (env : Env) (w : World) (dto : RegisterDto) :
  (exists u, In u (users w) /\ user_login u = reg_login dto)
  <-> AuthController.register env dto w = (Err Conflict, [], w).
Proof.
  rewrite register_eq. split.
  - intros [u [Hin Hl]].
    destruct (find _ (users w)) as [x|] eqn:Hf; [reflexivity|].
    pose proof (find_none _ _ Hf u Hin) as Hn.
    apply login_matches in Hl. congruence.
  - destruct (find _ (users w)) as [x|] eqn:Hf.
    + intros _. apply find_some in Hf. destruct Hf as [Hin Hm].
      exists x. split; [exact Hin | apply login_matches, Hm].
    + cbv zeta. destruct (collides env _); discriminate.
Qed.

Lemma register_conflict_iff_witness :
  AuthController.register env0
    (mkRegisterDto "Alicia" "Z" "alice" "other" "dev7") one_user
  = (Err Conflict, [], one_user).
Proof.
  apply (proj1 (register_conflict_iff env0 one_user
                  (mkRegisterDto "Alicia" "Z" "alice" "other" "dev7"))).
  exists (mkUser 0 "Alice" "A" "alice" "$2b$10$secret-a").
  split; [left|]; reflexivity.
Defined.

(** What an event does to the stored users: nothing, or (a register whose
    login was free) one new user at the end. *)
Lemma handle_users (env : Env) (ev : Event) (w : World) :
  (users (handle env ev w) = users w
   /\ nextUserId (handle env ev w) = nextUserId w)
  \/ (exists dto,
        ev = Register dto
        /\ find (UserService.matches (UserService.ByLogin (reg_login dto)))
                (users w) = None
        /\ users (handle env ev w) = users w ++ [new_user env dto w]
        /\ nextUserId (handle env ev w) = S (nextUserId w)).
Proof.
  destruct ev as [dto|dto|dto cookie|tok|tok|ms]; cbn [handle].
  - rewrite register_eq.
    destruct (find _ (users w)) as [x|] eqn:Hf; [left; split; reflexivity|].
    right. exists dto. split; [reflexivity|]. split; [exact Hf|].
    cbv zeta. destruct (collides env _); split; reflexivity.
  - left. rewrite login_eq.
    destruct (find _ (users w)); [|split; reflexivity].
    destruct (bcrypt_compare env _ _); [|split; reflexivity].
    cbv zeta. destruct (collides env _); split; reflexivity.
  - left. rewrite refreshTokens_eq.
    destruct (AuthController.falsy cookie); [split; reflexivity|].
    destruct (find _ (sessions w)); [|split; reflexivity].
    destruct (isExpired (now w) r); [split; reflexivity|].
    cbv zeta. destruct (collides env _); split; reflexivity.
  - left. split; reflexivity.
  - left. rewrite findUserByAccessToken_world. split; reflexivity.
  - left. split; reflexivity.
Qed.

Lemma users_ok_handle (env : Env) (ev : Event) (w : World) :
  users_ok w -> users_ok (handle env ev w).
Proof.
  intros [Hl Hi Hb].
  destruct (handle_users env ev w) as [[Hu Hn]|[dto [_ [Hf [Hu Hn]]]]].
  - constructor; rewrite ?Hu, ?Hn; assumption.
  - constructor; rewrite ?Hu, ?Hn, ?map_app; cbn.
    + apply NoDup_app; [exact Hl | repeat constructor; cbn; tauto|].
      intros l Hin [<-|[]].
      apply in_map_iff in Hin. destruct Hin as [x [Hx Hin]].
      pose proof (find_none _ _ Hf x Hin) as Hno.
      apply login_matches in Hx. congruence.
    + apply NoDup_app; [exact Hi | repeat constructor; cbn; tauto|].
      intros i Hin [<-|[]].
      apply in_map_iff in Hin. destruct Hin as [x [Hx Hin]].
      specialize (Hb x Hin). lia.
    + intros u Hin. apply in_app_or in Hin. destruct Hin as [Hin|[<-|[]]].
      * specialize (Hb u Hin). lia.
      * cbn. lia.
Qed.

Lemma users_ok_run (env : Env) (evs : list Event) (w : World) :
  users_ok w -> users_ok (run env evs w).
Proof.
  revert w. induction evs as [|ev evs IH]; intros w Hok; [exact Hok|].
  cbn. apply IH, users_ok_handle, Hok.
Qed.

Lemma reachable_users_ok (env : Env) (w : World) :
  reachable env w -> users_ok w.
Proof.
  intros [t0 [evs ->]]. apply users_ok_run.
  constructor; cbn; try constructor. intros u [].
Qed.

(** X2.  In every reachable world no two stored users share a login or an
    identifier, so a lookup by login or by identifier has one possible
    answer: a stored user is what [findOne] returns for its own login and
    for its own identifier. *)
Theorem logins_unique (env : Env) (w : World) :
  reachable env w ->
  NoDup (map user_login (users w))
  /\ NoDup (map user_id (users w))
  /\ (forall u, In u (users w) ->
        find (UserService.matches (UserService.ByLogin (user_login u)))
             (users w) = Some u
        /\ find (UserService.matches (UserService.WhereId (user_id u)))
                (users w) = Some u).
Proof.
  intros Hreach. destruct (reachable_users_ok env w Hreach) as [Hl Hi _].
  split; [exact Hl|]. split; [exact Hi|].
  intros u Hin. split.
  - destruct (find _ (users w)) as [x|] eqn:Hf.
    + apply find_some in Hf. destruct Hf as [Hx Hm].
      apply login_matches in Hm. f_equal.
      apply (NoDup_map_inj user_login (users w)); assumption.
    + pose proof (find_none _ _ Hf u Hin) as Hn. cbn in Hn.
      rewrite String.eqb_refl in Hn. discriminate.
  - destruct (find _ (users w)) as [x|] eqn:Hf.
    + apply find_some in Hf. destruct Hf as [Hx Hm].
      cbn in Hm. apply Nat.eqb_eq in Hm. f_equal.
      apply (NoDup_map_inj user_id (users w)); assumption.
    + pose proof (find_none _ _ Hf u Hin) as Hn. cbn in Hn.
      rewrite Nat.eqb_refl in Hn. discriminate.
Qed.

Lemma logins_unique_witness :
  reachable env0 two_users
  /\ map user_login (users two_users) = ["alice"; "bob"]
  /\ NoDup (map user_login (users two_users)).
Proof.
  assert (Hr : reachable env0 two_users)
    by (exists 0%Z, [Register alice_dev1; Register bob_dev1]; reflexivity).
  split; [exact Hr|]. split; [reflexivity|].
  apply (proj1 (logins_unique env0 two_users Hr)).
Defined.

(** Searching a list that was extended at its end. *)
Lemma find_extended {A} (p : A -> bool) (old added : list A) :
  find p (old ++ added)
  = match find p old with
    | Some x => Some x
    | None => find p added
    end.
Proof.
  induction old as [|a old IH]; cbn; [reflexivity|].
  destruct (p a); [reflexivity | exact IH].
Qed.

(** X3.  After a register that succeeded, the stored hash is the one of
    the submitted password: a login with the registered login and that
    password (the hash comparing equal) passes the credential check, from
    any device, and succeeds when the drawn token is new; a password that
    does not compare equal to the stored hash is rejected with
    [InvalidCredentials]. *)
Theorem register_then_login (env : Env) (w w1 : World) (dto : RegisterDto)
    (p : UserPublicData) (c : list Cookie) (fp : string) :
  AuthController.register env dto w = (Ok p, c, w1) ->
  bcrypt_compare env (reg_password dto) (password (new_user env dto w))
    = true ->
  find (UserService.matches (UserService.ByLogin (reg_login dto))) (users w1)
    = Some (new_user env dto w)
  /\ result (AuthController.login env
               (mkLoginDto (reg_login dto) (reg_password dto) fp) w1)
     <> Err InvalidCredentials
  /\ (collides env (drop_fingerprint fp w1) = false ->
      result (AuthController.login env
                (mkLoginDto (reg_login dto) (reg_password dto) fp) w1)
      = Ok p)
  /\ (forall pw,
        bcrypt_compare env pw (password (new_user env dto w)) = false ->
        AuthController.login env (mkLoginDto (reg_login dto) pw fp) w1
        = (Err InvalidCredentials, [], w1)).
Proof.
  rewrite register_eq.
  destruct (find _ (users w)) as [x|] eqn:Hf; [discriminate|]. cbv zeta.
  fold (new_user env dto w).
  destruct (collides env (add_user _ w)); [discriminate|].
  intros H Hpw. inversion H; subst p c w1; clear H.
  assert (Hfound :
    find (UserService.matches (UserService.ByLogin (reg_login dto)))
      (users (issue_world env (new_user env dto w) (reg_fingerprint dto)
                (add_user (new_user env dto w) w)))
    = Some (new_user env dto w)).
  { cbn [issue_world add_user users]. rewrite find_extended, Hf. cbn.
    rewrite String.eqb_refl. reflexivity. }
  split; [exact Hfound|].
  split; [|split].
  - rewrite login_eq. cbn [dto_login dto_password dto_fingerprint].
    rewrite Hfound, Hpw. cbv zeta.
    destruct (collides env _); discriminate.
  - intros Hc. rewrite login_eq. cbn [dto_login dto_password dto_fingerprint].
    rewrite Hfound, Hpw. cbv zeta. rewrite Hc. reflexivity.
  - intros pw Hno. rewrite login_eq.
    cbn [dto_login dto_password dto_fingerprint].
    rewrite Hfound, Hno. reflexivity.
Qed.

Lemma register_then_login_witness :
  result (AuthController.login env0 (mkLoginDto "alice" "secret-a" "dev2")
            one_user)
  = Ok (mkPublic 0 "Alice" "A" "alice")
  /\ AuthController.login env0 (mkLoginDto "alice" "Secret-a" "dev2") one_user
     = (Err InvalidCredentials, [], one_user).
Proof.
  destruct (register_then_login env0 (initial 0) one_user alice_dev1
              (mkPublic 0 "Alice" "A" "alice")
              (cookies (AuthController.register env0 alice_dev1 (initial 0)))
              "dev2" eq_refl eq_refl) as [_ [_ [Hok Hbad]]].
  split; [apply Hok; reflexivity | apply Hbad; reflexivity].
Defined.

(** ** What a history keeps *)

Lemma handle_clock (env : Env) (ev : Event) (w : World) :
  (now w <= now (handle env ev w))%Z.
Proof.
  destruct ev as [dto|dto|dto cookie|tok|tok|ms]; cbn [handle].
  - rewrite register_eq. destruct (find _ (users w)); [cbn; lia|].
    cbv zeta. destruct (collides env _); cbn; lia.
  - rewrite login_eq. destruct (find _ (users w)); [|cbn; lia].
    destruct (bcrypt_compare env _ _); [|cbn; lia].
    cbv zeta. destruct (collides env _); cbn; lia.
  - rewrite refreshTokens_eq.
    destruct (AuthController.falsy cookie); [cbn; lia|].
    destruct (find _ (sessions w)) as [s|]; [|cbn; lia].
    destruct (isExpired (now w) s); [cbn; lia|].
    cbv zeta. destruct (collides env _); cbn; lia.
  - cbn. lia.
  - rewrite findUserByAccessToken_world. lia.
  - cbn. lia.
Qed.

Lemma handle_session_ids (env : Env) (ev : Event) (w : World) :
  nextSessionId w <= nextSessionId (handle env ev w).
Proof.
  destruct ev as [dto|dto|dto cookie|tok|tok|ms]; cbn [handle].
  - rewrite register_eq. destruct (find _ (users w)); [cbn; lia|].
    cbv zeta. destruct (collides env _); cbn; lia.
  - rewrite login_eq. destruct (find _ (users w)); [|cbn; lia].
    destruct (bcrypt_compare env _ _); [|cbn; lia].
    cbv zeta. destruct (collides env _); cbn; lia.
  - rewrite refreshTokens_eq.
    destruct (AuthController.falsy cookie); [cbn; lia|].
    destruct (find _ (sessions w)) as [s|]; [|cbn; lia].
    destruct (isExpired (now w) s); [cbn; lia|].
    cbv zeta. destruct (collides env _); cbn; lia.
  - cbn. lia.
  - rewrite findUserByAccessToken_world. lia.
  - cbn. lia.
Qed.

Lemma handle_sessions (env : Env) (ev : Event) (w : World)
    (s : RefreshSession) :
  In s (sessions (handle env ev w)) ->
  In s (sessions w) \/ session_id s = nextSessionId w.
Proof.
  assert (Hfil : forall p, In s (filter p (sessions w)) -> In s (sessions w))
    by (intros p Hin; apply filter_In in Hin; tauto).
  destruct ev as [dto|dto|dto cookie|tok|tok|ms]; cbn [handle].
  - rewrite register_eq. destruct (find _ (users w)); [cbn; tauto|].
    cbv zeta. destruct (collides env _); cbn; [tauto|].
    intros Hin. apply in_app_or in Hin. destruct Hin as [Hin|[<-|[]]]; auto.
  - rewrite login_eq. destruct (find _ (users w)); [|cbn; tauto].
    destruct (bcrypt_compare env _ _); [|cbn; tauto].
    cbv zeta. destruct (collides env _); cbn.
    + intros Hin. left. eapply Hfil, Hin.
    + intros Hin. apply in_app_or in Hin.
      destruct Hin as [Hin|[<-|[]]]; [left; eapply Hfil, Hin | right].
      reflexivity.
  - rewrite refreshTokens_eq.
    destruct (AuthController.falsy cookie); [cbn; tauto|].
    destruct (find _ (sessions w)) as [x|]; [|cbn; tauto].
    destruct (isExpired (now w) x); [cbn; tauto|].
    cbv zeta. destruct (collides env _); cbn.
    + intros Hin. left. eapply Hfil, Hin.
    + intros Hin. apply in_app_or in Hin.
      destruct Hin as [Hin|[<-|[]]]; [left; eapply Hfil, Hin | right].
      reflexivity.
  - cbn. intros Hin. left. eapply Hfil, Hin.
  - rewrite findUserByAccessToken_world. tauto.
  - cbn. tauto.
Qed.

Lemma run_users (env : Env) (evs : list Event) (w : World) :
  exists added, users (run env evs w) = users w ++ added.
Proof.
  revert w. induction evs as [|ev evs IH]; intros w.
  - exists []. cbn. rewrite app_nil_r. reflexivity.
  - cbn. destruct (IH (handle env ev w)) as [added Hadd].
    fold (run env evs (handle env ev w)). rewrite Hadd.
    destruct (handle_users env ev w) as [[Hu _]|[dto [_ [_ [Hu _]]]]];
      rewrite Hu.
    + exists added. reflexivity.
    + exists ([new_user env dto w] ++ added). rewrite app_assoc. reflexivity.
Qed.

(** X4.  No operation deletes or changes a stored user: after any history
    the users are the earlier ones, in order, followed by the users
    registered since.  A user found by login or by identifier is found
    unchanged later on, so credentials that passed the check of [login]
    keep passing it. *)
Theorem users_persist (env : Env) (evs : list Event) (w : World) :
  (exists added, users (run env evs w) = users w ++ added)
  /\ (forall c u,
        find (UserService.matches c) (users w) = Some u ->
        find (UserService.matches c) (users (run env evs w)) = Some u)
  /\ (forall dto u,
        find (UserService.matches (UserService.ByLogin (dto_login dto)))
             (users w) = Some u ->
        bcrypt_compare env (dto_password dto) (password u) = true ->
        result (AuthController.login env dto (run env evs w))
        <> Err InvalidCredentials).
Proof.
  destruct (run_users env evs w) as [added Hadd].
  assert (Hfind : forall c u,
            find (UserService.matches c) (users w) = Some u ->
            find (UserService.matches c) (users (run env evs w)) = Some u).
  { intros c u Hf. rewrite Hadd, find_extended, Hf. reflexivity. }
  split; [exists added; exact Hadd|]. split; [exact Hfind|].
  intros dto u Hf Hpw. rewrite login_eq, (Hfind _ _ Hf), Hpw. cbv zeta.
  destruct (collides env _); discriminate.
Qed.

Lemma users_persist_witness :
  find (UserService.matches (UserService.ByLogin "alice"))
       (users (run env0 [Logout "rt-1"; Tick 50; Register bob_dev1] one_user))
  = Some (mkUser 0 "Alice" "A" "alice" "$2b$10$secret-a").
Proof.
  apply (proj1 (proj2 (users_persist env0
                         [Logout "rt-1"; Tick 50; Register bob_dev1]
                         one_user))).
  reflexivity.
Defined.

Lemma run_sessions (env : Env) (evs : list Event) (w : World)
    (s : RefreshSession) :
  In s (sessions (run env evs w)) ->
  In s (sessions w) \/ nextSessionId w <= session_id s.
Proof.
  revert w. induction evs as [|ev evs IH]; intros w; cbn; [tauto|].
  fold (run env evs (handle env ev w)). intros Hin.
  destruct (IH _ Hin) as [Hold|Hnew].
  - destruct (handle_sessions env ev w s Hold) as [H|H]; [tauto | right; lia].
  - right. pose proof (handle_session_ids env ev w). lia.
Qed.

(** X5.  No operation rewrites a stored session: after any history,
    every stored session is either a session of the earlier store,
    unchanged, or one issued since under a new identifier, and a session
    found under an earlier identifier is the earlier session, with its
    owner, fingerprint, token and [expiresAt].  No handler extends the
    life of a session or hands it to another user. *)
Theorem sessions_never_rewritten (env : Env) (evs : list Event) (w : World) :
  reachable env w ->
  (forall s, In s (sessions (run env evs w)) ->
             In s (sessions w) \/ nextSessionId w <= session_id s)
  /\ (forall s s', In s (sessions w) -> In s' (sessions (run env evs w)) ->
                   session_id s' = session_id s -> s' = s).
Proof.
  intros Hreach. pose proof (reachable_store_ok env w Hreach) as Hok.
  split; [apply run_sessions|].
  intros s s' Hs Hs' Hid.
  destruct (run_sessions env evs w s' Hs') as [Hold|Hnew].
  - apply (NoDup_map_inj session_id (sessions w));
      [apply (ok_ids_nodup _ Hok) | assumption..].
  - pose proof (ok_session_ids _ Hok s Hs). lia.
Qed.

Lemma sessions_never_rewritten_witness :
  reachable env0 two_users
  /\ forall s',
       In s' (sessions
                (run env0
                   [RefreshTokens (mkRefreshTokensDto "dev1") (Some "rt-1");
                    Logout "rt-3"; Register alice_dev1] two_users)) ->
       session_id s' = 1 ->
       s' = mkSession 1 (mkUser 1 "Bob" "B" "bob" "$2b$10$secret-b")
              "dev1" "rt-3" 10.
Proof.
  assert (Hr : reachable env0 two_users)
    by (exists 0%Z, [Register alice_dev1; Register bob_dev1]; reflexivity).
  split; [exact Hr|]. intros s' Hin Hid.
  apply (proj2 (sessions_never_rewritten env0
                  [RefreshTokens (mkRefreshTokensDto "dev1") (Some "rt-1");
                   Logout "rt-3"; Register alice_dev1] two_users Hr)
           (mkSession 1 (mkUser 1 "Bob" "B" "bob" "$2b$10$secret-b")
              "dev1" "rt-3" 10) s').
  - right. left. reflexivity.
  - exact Hin.
  - exact Hid.
Defined.

(** ** Issued tokens *)

(** The session [getJWTs] has just stored is the one its token and
    fingerprint select. *)
Lemma issued_found (env : Env) (u : User) (fp : string) (w : World) :
  collides env w = false ->
  findSession (issue_world env u fp w) fp (v4 env (entropy w))
  = Some (issued env u fp w).
Proof.
  intros Hc. unfold findSession. cbn [issue_world sessions].
  rewrite find_extended.
  rewrite find_absent.
  - cbn. unfold RefreshSessionService.matches. cbn.
    rewrite !String.eqb_refl. reflexivity.
  - intros x Hx.
    destruct (RefreshSessionService.matches _ x) eqn:Hm; [|reflexivity].
    apply matches_spec in Hm. destruct Hm as [_ Ht].
    elim (proj1 (collides_false env w) Hc x Hx (Ht _ eq_refl)).
Qed.



(** X7.  While the clock plus the refresh lifetime is a valid [Date], the
    refresh token [getJWTs] hands out is redeemable for exactly one
    refresh lifetime: presented with its fingerprint [d] milliseconds
    after it was issued, it is rejected with [InvalidRefreshToken] when
    [d] has reached the lifetime (at once, when the configured lifetime is
    not positive), and otherwise accepted (the token being a non-empty
    string and the next draw a new value). *)
Theorem issued_token_window (env : Env) (w w' : World) (u : User)
    (fp : string) (jwts : JWTs) (d : N) :
  AuthController.getJWTs env u fp w = (Ok jwts, [], w') ->
  Date_valid (now w + jwt_refreshToken_expiresIn env) = true ->
  let later := advance (Z.of_N d) w' in
  let rt := mkRefreshTokensDto fp in
  findSession w' fp (refreshToken jwts) = Some (issued env u fp w)
  /\ ((jwt_refreshToken_expiresIn env <= Z.of_N d)%Z ->
      AuthController.refreshTokens env rt (Some (refreshToken jwts)) later
      = (Err InvalidRefreshToken, [], later))
  /\ ((Z.of_N d < jwt_refreshToken_expiresIn env)%Z ->
      refreshToken jwts <> "" ->
      collides env (drop_session (issued env u fp w) later) = false ->
      result (AuthController.refreshTokens env rt (Some (refreshToken jwts))
                later) = Ok tt).
Proof.
  rewrite getJWTs_eq. destruct (collides env w) eqn:Hc; [discriminate|].
  intros H _. inversion H; subst jwts w'; clear H. cbv zeta.
  cbn [refreshToken].
  pose proof (issued_found env u fp w Hc) as Hfound.
  split; [exact Hfound|].
  assert (Hfind :
    find (RefreshSessionService.matches
            (RefreshSessionService.mkConditions (Some fp)
               (Some (v4 env (entropy w)))))
         (sessions (advance (Z.of_N d) (issue_world env u fp w)))
    = Some (issued env u fp w)) by exact Hfound.
  split.
  - intros Hd. rewrite refreshTokens_eq. cbn [rt_fingerprint].
    destruct (AuthController.falsy _); [reflexivity|].
    rewrite Hfind.
    assert (isExpired (now (advance (Z.of_N d) (issue_world env u fp w)))
              (issued env u fp w) = true) as ->; [|reflexivity].
    apply isExpired_spec. cbn. lia.
  - intros Hd Hne Hfresh. rewrite refreshTokens_eq. cbn [rt_fingerprint].
    cbn [AuthController.falsy].
    destruct (String.eqb_spec (v4 env (entropy w)) ""); [contradiction|].
    rewrite Hfind.
    assert (isExpired (now (advance (Z.of_N d) (issue_world env u fp w)))
              (issued env u fp w) = false) as ->.
    { destruct (isExpired _ _) eqn:E; [|reflexivity].
      apply isExpired_spec in E. cbn in E. lia. }
    cbv zeta. rewrite Hfresh. reflexivity.
Qed.

Lemma issued_token_window_witness :
  let alice := mkUser 0 "Alice" "A" "alice" "$2b$10$secret-a" in
  let w' := world (AuthController.getJWTs env0 alice "dev3" one_user) in
  result (AuthController.refreshTokens env0 (mkRefreshTokensDto "dev3")
            (Some "rt-2") (advance 9 w')) = Ok tt
  /\ AuthController.refreshTokens env0 (mkRefreshTokensDto "dev3")
       (Some "rt-2") (advance 10 w')
     = (Err InvalidRefreshToken, [], advance 10 w').
Proof.
  cbv zeta. split.
  - apply (issued_token_window env0 one_user _
             (mkUser 0 "Alice" "A" "alice" "$2b$10$secret-a") "dev3"
             (mkJWTs "jwt.0" "rt-2") 9 eq_refl eq_refl).
    + reflexivity.
    + discriminate.
    + reflexivity.
  - apply (issued_token_window env0 one_user _
             (mkUser 0 "Alice" "A" "alice" "$2b$10$secret-a") "dev3"
             (mkJWTs "jwt.0" "rt-2") 10 eq_refl eq_refl).
    cbn. lia.
Defined.

(** X8.  A login that succeeds revokes the refresh tokens the device held
    before: a token that was stored under the fingerprint of the request,
    whoever its user, is rejected with [InvalidRefreshToken] when
    presented with that fingerprint afterwards (the new token being
    another value). *)
Theorem login_revokes_device_tokens (env : Env) (w w' : World)
    (dto : LoginDto) (p : UserPublicData) (c : list Cookie)
    (s : RefreshSession) :
  AuthController.login env dto w = (Ok p, c, w') ->
  fingerprint s = dto_fingerprint dto ->
  v4 env (entropy w) <> token s ->
  findSession w' (dto_fingerprint dto) (token s) = None
  /\ (forall ms,
        AuthController.refreshTokens env
          (mkRefreshTokensDto (dto_fingerprint dto)) (Some (token s))
          (advance (Z.of_N ms) w')
        = (Err InvalidRefreshToken, [], advance (Z.of_N ms) w')).
Proof.
  rewrite login_eq.
  destruct (find _ (users w)) as [u|]; [|discriminate].
  destruct (bcrypt_compare env _ _); [|discriminate]. cbv zeta.
  destruct (collides env _); [discriminate|].
  intros H Hfp Hnew. inversion H; subst p c w'; clear H.
  assert (Hnone :
    find (RefreshSessionService.matches
            (RefreshSessionService.mkConditions (Some (dto_fingerprint dto))
               (Some (token s))))
         (sessions (issue_world env u (dto_fingerprint dto)
                      (drop_fingerprint (dto_fingerprint dto) w))) = None).
  { apply find_absent. intros x Hx. cbn [issue_world sessions] in Hx.
    rewrite drop_fingerprint_sessions in Hx.
    destruct (RefreshSessionService.matches _ x) eqn:Hm; [exfalso|reflexivity].
    apply matches_spec in Hm. destruct Hm as [Hf Ht].
    specialize (Hf _ eq_refl). specialize (Ht _ eq_refl).
    apply in_app_or in Hx. destruct Hx as [Hx|[<-|[]]].
    - apply filter_In in Hx. destruct Hx as [_ Hx].
      apply Bool.negb_true_iff, String.eqb_neq in Hx. contradiction.
    - cbn in Ht. apply Hnew. exact Ht. }
  split; [exact Hnone|].
  intros ms. rewrite refreshTokens_eq. cbn [rt_fingerprint].
  destruct (AuthController.falsy _); [reflexivity|].
  cbn [advance sessions]. cbn [issue_world sessions] in Hnone.
  cbn [issue_world sessions]. rewrite Hnone. reflexivity.
Qed.

Lemma login_revokes_device_tokens_witness :
  let w' := world (AuthController.login env0
                     (mkLoginDto "bob" "secret-b" "dev1") two_users) in
  findSession two_users "dev1" "rt-1" <> None
  /\ findSession w' "dev1" "rt-1" = None.
Proof.
  cbv zeta. split; [discriminate|].
  apply (login_revokes_device_tokens env0 two_users _
           (mkLoginDto "bob" "secret-b" "dev1") _ _
           (mkSession 0 (mkUser 0 "Alice" "A" "alice" "$2b$10$secret-a")
              "dev1" "rt-1" 10) eq_refl eq_refl).
  intros H. vm_compute in H. discriminate.
Defined.

(** ** Access tokens *)

Lemma findUserByAccessToken_eq (env : Env) (tok : string) (w : World) :
  AuthService.findUserByAccessToken env tok w
  = (Ok match jwt_verify env (now w) tok with
        | Some userId =>
            find (UserService.matches (UserService.WhereId userId)) (users w)
        | None => None
        end, [], w).
Proof.
  unfold AuthService.findUserByAccessToken, try_catch, bind,
    AuthService.jwtService_verifyAsync, UserService.findOne, ret.
  destruct (jwt_verify env (now w) tok); reflexivity.
Qed.

(** X9.  [findUserByAccessToken] reads the clock and the users only, never
    the refresh sessions: an access token resolves to the same user after
    a logout, a login or a refresh as before it.  Logging out does not
    revoke the access token. *)
Theorem access_token_outlives_sessions (env : Env) (w : World)
    (tok : string) :
  (forall w2, users w2 = users w -> now w2 = now w ->
     result (AuthService.findUserByAccessToken env tok w2)
     = result (AuthService.findUserByAccessToken env tok w))
  /\ (forall rt,
        result (AuthService.findUserByAccessToken env tok
                  (world (AuthController.logout rt w)))
        = result (AuthService.findUserByAccessToken env tok w))
  /\ (forall dto,
        result (AuthService.findUserByAccessToken env tok
                  (world (AuthController.login env dto w)))
        = result (AuthService.findUserByAccessToken env tok w))
  /\ (forall dto cookie,
        result (AuthService.findUserByAccessToken env tok
                  (world (AuthController.refreshTokens env dto cookie w)))
        = result (AuthService.findUserByAccessToken env tok w)).
Proof.
  assert (Hgen : forall w2, users w2 = users w -> now w2 = now w ->
            result (AuthService.findUserByAccessToken env tok w2)
            = result (AuthService.findUserByAccessToken env tok w)).
  { intros w2 Hu Hn. rewrite !findUserByAccessToken_eq. unfold result. cbn.
    rewrite Hu, Hn. reflexivity. }
  split; [exact Hgen|]. split; [|split].
  - intros rt. apply Hgen; reflexivity.
  - intros dto. apply Hgen.
    + destruct (handle_users env (Login dto) w)
        as [[Hu _]|[x [Hx _]]]; [exact Hu | discriminate].
    + rewrite login_eq. destruct (find _ (users w)); [|reflexivity].
      destruct (bcrypt_compare env _ _); [|reflexivity].
      cbv zeta. destruct (collides env _); reflexivity.
  - intros dto cookie. apply Hgen.
    + destruct (handle_users env (RefreshTokens dto cookie) w)
        as [[Hu _]|[x [Hx _]]]; [exact Hu | discriminate].
    + rewrite refreshTokens_eq.
      destruct (AuthController.falsy cookie); [reflexivity|].
      destruct (find _ (sessions w)) as [s|]; [|reflexivity].
      destruct (isExpired (now w) s); [reflexivity|].
      cbv zeta. destruct (collides env _); reflexivity.
Qed.

(** X10.  The access token a successful login writes resolves to the user
    who logged in: when the verifier accepts what the signer has just
    signed, [findUserByAccessToken] on the value of the access cookie
    returns that stored user. *)
Theorem login_access_token_resolves (env : Env) (w w' : World)
    (dto : LoginDto) (p : UserPublicData) (c : list Cookie) (u : User) :
  reachable env w ->
  AuthController.login env dto w = (Ok p, c, w') ->
  find (UserService.matches (UserService.ByLogin (dto_login dto))) (users w)
    = Some u ->
  jwt_verify env (now w) (jwt_sign env (now w) (user_id u))
    = Some (user_id u) ->
  map cookie_name c = ["access-token"; "refresh-token"]
  /\ map cookie_value (firstn 1 c) = [Some (jwt_sign env (now w) (user_id u))]
  /\ AuthService.findUserByAccessToken env
       (jwt_sign env (now w) (user_id u)) w'
     = (Ok (Some u), [], w').
Proof.
  intros Hreach Hlogin Hf Hjwt.
  destruct (reachable_users_ok env w Hreach) as [_ Hids _].
  rewrite login_eq, Hf in Hlogin.
  destruct (bcrypt_compare env _ _); [|discriminate]. cbv zeta in Hlogin.
  destruct (collides env _); [discriminate|].
  inversion Hlogin; subst p c w'; clear Hlogin.
  split; [reflexivity|]. split; [reflexivity|].
  rewrite findUserByAccessToken_eq. cbn [issue_world now users].
  cbn [drop_fingerprint set_sessions now users]. rewrite Hjwt.
  apply find_some in Hf. destruct Hf as [Hin _].
  destruct (find _ (users w)) as [x|] eqn:Hx.
  - apply find_some in Hx. destruct Hx as [Hxin Hm].
    cbn in Hm. apply Nat.eqb_eq in Hm.
    rewrite (NoDup_map_inj user_id (users w) x u Hids Hxin Hin Hm).
    reflexivity.
  - pose proof (find_none _ _ Hx u Hin) as Hn. cbn in Hn.
    rewrite Nat.eqb_refl in Hn. discriminate.
Qed.

Lemma login_access_token_resolves_witness :
  AuthService.findUserByAccessToken env0 "jwt.1"
    (world (AuthController.login env0 (mkLoginDto "bob" "secret-b" "dev1")
              two_users))
  = (Ok (Some (mkUser 1 "Bob" "B" "bob" "$2b$10$secret-b")), [],
     world (AuthController.login env0 (mkLoginDto "bob" "secret-b" "dev1")
              two_users)).
Proof.
  apply (login_access_token_resolves env0 two_users _
           (mkLoginDto "bob" "secret-b" "dev1")
           (mkPublic 1 "Bob" "B" "bob")
           (cookies (AuthController.login env0
                       (mkLoginDto "bob" "secret-b" "dev1") two_users))
           (mkUser 1 "Bob" "B" "bob" "$2b$10$secret-b")).
  - exists 0%Z, [Register alice_dev1; Register bob_dev1]. reflexivity.
  - reflexivity.
  - reflexivity.
  - reflexivity.
Defined.

(** ** Rejected requests *)

(** X11.  The only [BadRequestException] a handler throws is its own
    ([Conflict] for register, [InvalidCredentials] for login,
    [InvalidRefreshToken] for refresh), and a request rejected with it has
    written no cookie and changed nothing: no user, no session, no
    draw. *)
Theorem bad_request_changes_nothing (env : Env) (w : World) :
  (forall dto m,
     result (AuthController.register env dto w) = Err (BadRequestException m)
     -> AuthController.register env dto w = (Err Conflict, [], w))
  /\ (forall dto m,
        result (AuthController.login env dto w) = Err (BadRequestException m)
        -> AuthController.login env dto w = (Err InvalidCredentials, [], w))
  /\ (forall dto cookie m,
        result (AuthController.refreshTokens env dto cookie w)
          = Err (BadRequestException m)
        -> AuthController.refreshTokens env dto cookie w
           = (Err InvalidRefreshToken, [], w)).
Proof.
  split; [|split].
  - intros dto m. rewrite register_eq.
    destruct (find _ (users w)); [reflexivity|]. cbv zeta.
    destruct (collides env _); discriminate.
  - intros dto m. rewrite login_eq.
    destruct (find _ (users w)); [|reflexivity].
    destruct (bcrypt_compare env _ _); [|reflexivity]. cbv zeta.
    destruct (collides env _); discriminate.
  - intros dto cookie m. rewrite refreshTokens_eq.
    destruct (AuthController.falsy cookie); [reflexivity|].
    destruct (find _ (sessions w)) as [s|]; [|reflexivity].
    destruct (isExpired (now w) s); [reflexivity|]. cbv zeta.
    destruct (collides env _); discriminate.
Qed.

Lemma bad_request_changes_nothing_witness :
  AuthController.refreshTokens env0 (mkRefreshTokensDto "dev1") None one_user
  = (Err InvalidRefreshToken, [], one_user).
Proof.
  apply (proj2 (proj2 (bad_request_changes_nothing env0 one_user))
           (mkRefreshTokensDto "dev1") None "Invalid refresh token").
  reflexivity.
Defined.

Lemma access_token_outlives_sessions_witness :
  result (AuthService.findUserByAccessToken env0 "jwt.0"
            (world (AuthController.logout "rt-1" one_user)))
  = Ok (Some (mkUser 0 "Alice" "A" "alice" "$2b$10$secret-a"))
  /\ sessions (world (AuthController.logout "rt-1" one_user)) = [].
Proof.
  split; [|reflexivity].
  rewrite (proj1 (proj2 (access_token_outlives_sessions env0 one_user
                           "jwt.0")) "rt-1").
  reflexivity.
Defined.

(** ** What a request leaves alone *)

(** X12.  A refresh that succeeds touches one session only: the users are
    as before, and every stored session other than the matched one is
    still stored, unchanged, in the same order, before the new one. *)
Theorem refresh_frame (env : Env) (w w' : World) (dto : RefreshTokensDto)
    (cookie : option string) (c : list Cookie) :
  reachable env w ->
  AuthController.refreshTokens env dto cookie w = (Ok tt, c, w') ->
  exists s n,
    matching w (rt_fingerprint dto) cookie = Some s
    /\ users w' = users w
    /\ (forall x, In x (sessions w) -> x <> s -> In x (sessions w'))
    /\ sessions w'
       = filter (fun x => negb (Nat.eqb (session_id x) (session_id s)))
                (sessions w) ++ [n]
    /\ List.length (sessions w') = List.length (sessions w).
Proof.
  intros Hreach. pose proof (reachable_store_ok env w Hreach) as Hok.
  rewrite refreshTokens_eq.
  destruct cookie as [tok|]; [|discriminate].
  destruct (AuthController.falsy (Some tok)); [discriminate|].
  rewrite matching_find.
  destruct (matching w (rt_fingerprint dto) (Some tok)) as [s|] eqn:Hm;
    [|discriminate].
  destruct (isExpired (now w) s); [discriminate|]. cbv zeta.
  destruct (collides env _); [discriminate|].
  intros H. inversion H; subst c w'; clear H.
  pose proof (find_some _ _ Hm) as [Hin _].
  assert (Hkeep : forall x, In x (sessions w) -> x <> s ->
            negb (Nat.eqb (session_id x) (session_id s)) = true).
  { intros x Hx Hne. apply Bool.negb_true_iff, Nat.eqb_neq. intros Hid.
    apply Hne. apply (NoDup_map_inj session_id (sessions w));
      [apply (ok_ids_nodup _ Hok) | assumption..]. }
  exists s, (issued env (user s) (rt_fingerprint dto) (drop_session s w)).
  split; [reflexivity|]. split; [reflexivity|]. split; [|split].
  - intros x Hx Hne. cbn. apply in_or_app. left. apply filter_In.
    split; [exact Hx | apply Hkeep; assumption].
  - reflexivity.
  - cbn. rewrite length_app. cbn.
    pose proof (ok_ids_nodup _ Hok) as Hnd.
    clear - Hin Hnd. induction (sessions w) as [|a l IH]; [destruct Hin|].
    cbn in Hnd. inversion Hnd as [|? ? Hn Hd]; subst.
    cbn. destruct (Nat.eqb_spec (session_id a) (session_id s)) as [E|E]; cbn.
    + rewrite filter_all; [lia|].
      intros x Hx. apply Bool.negb_true_iff, Nat.eqb_neq. intros Hid.
      apply Hn. rewrite E, <- Hid. apply in_map, Hx.
    + destruct Hin as [->|Hin]; [contradiction|].
      specialize (IH Hin Hd). lia.
Qed.

Lemma refresh_frame_witness :
  let w' := world (AuthController.refreshTokens env0
                     (mkRefreshTokensDto "dev1") (Some "rt-3") two_users) in
  map token (sessions two_users) = ["rt-1"; "rt-3"]
  /\ map token (sessions w') = ["rt-1"; "rt-4"]
  /\ exists s n,
       matching two_users "dev1" (Some "rt-3") = Some s
       /\ users w' = users two_users
       /\ (forall x, In x (sessions two_users) -> x <> s ->
                     In x (sessions w'))
       /\ sessions w'
          = filter (fun x => negb (Nat.eqb (session_id x) (session_id s)))
                   (sessions two_users) ++ [n]
       /\ List.length (sessions w') = List.length (sessions two_users).
Proof.
  cbv zeta. split; [reflexivity|]. split; [reflexivity|].
  apply (refresh_frame env0 two_users _ (mkRefreshTokensDto "dev1")
           (Some "rt-3")
           (cookies (AuthController.refreshTokens env0
                       (mkRefreshTokensDto "dev1") (Some "rt-3") two_users))).
  - exists 0%Z, [Register alice_dev1; Register bob_dev1]. reflexivity.
  - reflexivity.
Defined.

Lemma sessions_survive_register (env : Env) (dto : RegisterDto)
    (w : World) (s : RefreshSession) :
  In s (sessions w) ->
  In s (sessions (world (AuthController.register env dto w))).
Proof.
  intros Hin. rewrite register_eq. destruct (find _ (users w)); [exact Hin|].
  cbv zeta. destruct (collides env _); cbn; [exact Hin|].
  apply in_or_app. left. exact Hin.
Qed.

(** X13.  [register] never removes a session, whatever its outcome: the
    stored sessions stay, in order, followed by at most the one it issues.
    Unlike [login] it does not clear the device: the sessions other users
    hold under the fingerprint of the request survive a register. *)
Theorem register_keeps_sessions (env : Env) (w : World) (dto : RegisterDto) :
  (exists issued_now,
     sessions (world (AuthController.register env dto w))
     = sessions w ++ issued_now
     /\ List.length issued_now <= 1
     /\ (forall p, result (AuthController.register env dto w) = Ok p ->
                   List.length issued_now = 1))
  /\ (forall s, In s (sessions w) ->
                In s (sessions (world (AuthController.register env dto w)))).
Proof.
  assert (H : exists issued_now,
     sessions (world (AuthController.register env dto w))
     = sessions w ++ issued_now
     /\ List.length issued_now <= 1
     /\ (forall p, result (AuthController.register env dto w) = Ok p ->
                   List.length issued_now = 1)).
  { rewrite register_eq. destruct (find _ (users w)).
    - exists []. cbn. rewrite app_nil_r.
      split; [reflexivity|]. split; [lia | discriminate].
    - cbv zeta. destruct (collides env _).
      + exists []. cbn. rewrite app_nil_r.
        split; [reflexivity|]. split; [lia | discriminate].
      + eexists [_]. cbn. split; [reflexivity|]. split; [lia | reflexivity]. }
  split; [exact H|].
  destruct H as [issued_now [Heq _]]. intros s Hin. rewrite Heq.
  apply in_or_app. left. exact Hin.
Qed.

(** ** The two copies of the issuing code *)

(** X14.  [AuthService] repeats [getJWTs] and the two cookie option
    getters of [AuthController]; although the service draws the token
    before it reads the clock, the copies agree: on every user,
    fingerprint and world they return the same tokens or the same failure
    and leave the same world. *)
Theorem service_copies_agree (env : Env) (u : User) (fp : string)
    (w : World) :
  AuthService.getJWTs env u fp w = AuthController.getJWTs env u fp w
  /\ AuthService.accessTokenCookieOptions env
     = AuthController.accessTokenCookieOptions env
  /\ AuthService.refreshTokenCookieOptions env
     = AuthController.refreshTokenCookieOptions env.
Proof.
  split; [|split; reflexivity].
  unfold AuthService.getJWTs, AuthController.getJWTs, bind, Date_now,
    AuthController.uuid_v4, AuthController.jwtService_signAsync.
  reflexivity.
Qed.

(** ** Overlapping requests and the session of a pair *)

Section LoginRace.

Variable env : Env.

Lemma login_step_begin (dto : LoginDto) (u : User) (w : World) :
  find (UserService.matches (UserService.ByLogin (dto_login dto))) (users w)
    = Some u ->
  login_step env (LoginBegin dto) w = (Comparing dto u, w).
Proof.
  intros Hf. unfold login_step, UserService.findOne. rewrite Hf. reflexivity.
Qed.

Lemma login_step_compare (dto : LoginDto) (u : User) (w : World) :
  bcrypt_compare env (dto_password dto) (password u) = true ->
  login_step env (Comparing dto u) w = (Deleting dto u, w).
Proof. intros Hpw. unfold login_step. rewrite Hpw. reflexivity. Qed.

Lemma login_step_delete (dto : LoginDto) (u : User) (w : World) :
  login_step env (Deleting dto u) w
  = (LoginSigning dto u, drop_fingerprint (dto_fingerprint dto) w).
Proof. reflexivity. Qed.

Lemma login_step_sign (dto : LoginDto) (u : User) (w : World) :
  login_step env (LoginSigning dto u) w
  = (LoginCreating dto u (jwt_sign env (now w) (user_id u))
       (now w + jwt_refreshToken_expiresIn env)%Z (v4 env (entropy w)),
     bump_entropy w).
Proof. reflexivity. Qed.

(** Served alone, the login task does what the handler does. *)
Lemma login_alone_login (dto : LoginDto) (w : World) :
  login_alone env (LoginBegin dto) w
  = (LoginFinished (result (AuthController.login env dto w))
       (cookies (AuthController.login env dto w)),
     world (AuthController.login env dto w)).
Proof.
  rewrite login_eq. unfold login_alone.
  unfold login_step at 1. unfold UserService.findOne.
  destruct (find _ (users w)) as [u|]; [|reflexivity].
  unfold login_step at 1.
  destruct (bcrypt_compare env _ _); [|reflexivity].
  cbn [negb]. rewrite login_step_delete, login_step_sign. cbv zeta.
  unfold login_step, RefreshSessionService.create, collides.
  cbn [bump_entropy sessions].
  destruct (existsb _ (sessions (drop_fingerprint _ w))); reflexivity.
Qed.

End LoginRace.

(** ** Expired sessions and logged-out devices *)

Lemma spared_session_stays (env : Env) (ev : Event) (w : World)
    (s : RefreshSession) :
  store_ok w -> In s (sessions w) -> isExpired (now w) s = true ->
  spares s ev = true ->
  In s (sessions (handle env ev w)).
Proof.
  intros Hok Hin He Hsp.
  destruct ev as [dto|dto|dto cookie|tok|tok|ms]; cbn [handle].
  - apply sessions_survive_register, Hin.
  - cbn in Hsp. apply Bool.negb_true_iff in Hsp.
    assert (In s (sessions (drop_fingerprint (dto_fingerprint dto) w))) as Hs.
    { rewrite drop_fingerprint_sessions. apply filter_In.
      split; [exact Hin|]. rewrite Hsp. reflexivity. }
    rewrite login_eq. destruct (find _ (users w)); [|exact Hin].
    destruct (bcrypt_compare env _ _); [|exact Hin].
    cbv zeta. destruct (collides env _); cbn [world snd].
    + exact Hs.
    + cbn [issue_world sessions]. apply in_or_app. left. exact Hs.
  - rewrite refreshTokens_eq.
    destruct (AuthController.falsy cookie); [exact Hin|].
    destruct (find _ (sessions w)) as [x|] eqn:Hf; [|exact Hin].
    destruct (isExpired (now w) x) eqn:Hx; [exact Hin|].
    apply find_some in Hf. destruct Hf as [Hxin _].
    assert (In s (sessions (drop_session x w))) as Hs.
    { cbn. apply filter_In. split; [exact Hin|].
      apply Bool.negb_true_iff, Nat.eqb_neq. intros Hid.
      assert (s = x)
        by (apply (NoDup_map_inj session_id (sessions w));
            [apply (ok_ids_nodup _ Hok) | assumption..]).
      subst x. congruence. }
    cbv zeta. destruct (collides env _); cbn [world snd].
    + exact Hs.
    + cbn [issue_world sessions]. apply in_or_app. left. exact Hs.
  - cbn in Hsp. rewrite logout_world, drop_token_sessions.
    apply filter_In. split; [exact Hin | exact Hsp].
  - rewrite findUserByAccessToken_world. exact Hin.
  - exact Hin.
Qed.

(** X17.  Nothing collects an expired session: once a stored session is
    expired, registers, refreshes, identity resolutions, the passing of
    time, logins under other fingerprints and logouts with other tokens
    all leave it stored, and expired.  Only a login under its fingerprint
    or a logout with its token removes it. *)
Theorem expired_sessions_linger (env : Env) (evs : list Event) (w : World)
    (s : RefreshSession) :
  reachable env w ->
  In s (sessions w) ->
  isExpired (now w) s = true ->
  forallb (spares s) evs = true ->
  In s (sessions (run env evs w))
  /\ isExpired (now (run env evs w)) s = true.
Proof.
  intros Hreach. pose proof (reachable_store_ok env w Hreach) as Hok.
  clear Hreach. revert w Hok.
  induction evs as [|ev evs IH]; intros w Hok Hin He Hall; [tauto|].
  cbn in Hall. apply Bool.andb_true_iff in Hall. destruct Hall as [Hsp Hall].
  cbn. fold (run env evs (handle env ev w)). apply IH.
  - apply store_ok_handle, Hok.
  - apply spared_session_stays; assumption.
  - apply isExpired_spec in He. apply isExpired_spec.
    pose proof (handle_clock env ev w). lia.
  - exact Hall.
Qed.

Lemma expired_sessions_linger_witness :
  let w := advance 10 one_user in
  let s := mkSession 0 (mkUser 0 "Alice" "A" "alice" "$2b$10$secret-a")
             "dev1" "rt-1" 10 in
  In s (sessions
          (run env0
             [RefreshTokens (mkRefreshTokensDto "dev1") (Some "rt-1");
              Tick 1000; Register bob_dev1;
              Login (mkLoginDto "alice" "secret-a" "dev2")] w)).
Proof.
  cbv zeta.
  apply (expired_sessions_linger env0
           [RefreshTokens (mkRefreshTokensDto "dev1") (Some "rt-1");
            Tick 1000; Register bob_dev1;
            Login (mkLoginDto "alice" "secret-a" "dev2")]
           (advance 10 one_user)
           (mkSession 0 (mkUser 0 "Alice" "A" "alice" "$2b$10$secret-a")
              "dev1" "rt-1" 10)).
  - exists 0%Z, [Register alice_dev1; Tick 10]. reflexivity.
  - left. reflexivity.
  - reflexivity.
  - reflexivity.
Defined.

(** X18.  A logout with the refresh token a login has just handed out
    takes back exactly the session of that login: the store holds what the
    cleanup of the login had left, the sessions under other fingerprints,
    and no session for the device. *)
Theorem login_then_logout (env : Env) (w w' : World) (dto : LoginDto)
    (p : UserPublicData) (c : list Cookie) :
  AuthController.login env dto w = (Ok p, c, w') ->
  map cookie_value (skipn 1 c) = [Some (v4 env (entropy w))]
  /\ sessions (world (AuthController.logout (v4 env (entropy w)) w'))
     = filter (fun s => negb (String.eqb (fingerprint s) (dto_fingerprint dto)))
              (sessions w)
  /\ (forall uid,
        sessions_of (world (AuthController.logout (v4 env (entropy w)) w'))
          uid (dto_fingerprint dto) = []).
Proof.
  rewrite login_eq.
  destruct (find _ (users w)) as [u|]; [|discriminate].
  destruct (bcrypt_compare env _ _); [|discriminate]. cbv zeta.
  destruct (collides env _) eqn:Hc; [discriminate|].
  intros H. inversion H; subst p c w'; clear H.
  split; [reflexivity|].
  assert (Hs :
    sessions (world (AuthController.logout (v4 env (entropy w))
                       (issue_world env u (dto_fingerprint dto)
                          (drop_fingerprint (dto_fingerprint dto) w))))
    = sessions (drop_fingerprint (dto_fingerprint dto) w)).
  { rewrite logout_world, drop_token_sessions. cbn [issue_world sessions].
    rewrite filter_app. cbn [filter]. cbn [issued token].
    cbn [drop_fingerprint set_sessions entropy].
    rewrite String.eqb_refl. cbn [negb]. rewrite app_nil_r.
    apply filter_all. intros x Hx. apply Bool.negb_true_iff, String.eqb_neq.
    apply (proj1 (collides_false env _) Hc x Hx). }
  split.
  - rewrite Hs. apply drop_fingerprint_sessions.
  - intros uid. unfold sessions_of. rewrite Hs.
    apply (sessions_of_drop_fingerprint uid (dto_fingerprint dto) w).
Qed.

Lemma login_then_logout_witness :
  let w' := world (AuthController.login env0
                     (mkLoginDto "alice" "secret-a" "dev2") one_user) in
  map token (sessions w') = ["rt-1"; "rt-2"]
  /\ sessions (world (AuthController.logout "rt-2" w'))
     = filter (fun s => negb (String.eqb (fingerprint s) "dev2"))
              (sessions one_user).
Proof.
  cbv zeta. split; [reflexivity|].
  exact (proj1 (proj2 (login_then_logout env0 one_user _
                         (mkLoginDto "alice" "secret-a" "dev2")
                         (mkPublic 0 "Alice" "A" "alice")
                         (cookies (AuthController.login env0
                            (mkLoginDto "alice" "secret-a" "dev2")
                            one_user))
                         eq_refl))).
Defined.

Lemma surjective_pairing_3 {A B C} (x : A * B * C) :
  x = (fst (fst x), snd (fst x), snd x).
Proof. destruct x as [[a b] c]. reflexivity. Qed.

(** ** Every interleaving of two refreshes *)

Lemma draws_new_spec (env : Env) (w : World) :
  draws_new env w = true ->
  (forall k x, k < 2 -> In x (sessions w) ->
     token x <> v4 env (k + entropy w))
  /\ (forall k k', k < 2 -> k' < 2 -> k' <> k ->
        v4 env (k' + entropy w) <> v4 env (k + entropy w)).
Proof.
  unfold draws_new. intros H. apply Bool.andb_true_iff in H.
  destruct H as [Hst Hd]. apply Bool.negb_true_iff in Hst, Hd.
  apply String.eqb_neq in Hd. split.
  - intros k x Hk Hin Heq.
    assert (existsb (fun x => String.eqb (token x) (v4 env (entropy w))
                              || String.eqb (token x) (v4 env (S (entropy w))))
              (sessions w) = true) as Ht; [|congruence].
    apply existsb_exists. exists x. split; [exact Hin|].
    apply Bool.orb_true_iff.
    destruct k as [|[|k]]; [left | right | lia]; apply String.eqb_eq, Heq.
  - intros k k' Hk Hk' Hne Heq.
    destruct k as [|[|k]], k' as [|[|k']]; try lia; cbn in Heq; congruence.
Qed.

Section RefreshRaceProof.

Variable env : Env.
Variable w : World.
Variable dto : RefreshTokensDto.
Variable tok : string.
Variable s : RefreshSession.

Hypothesis Hok : store_ok w.
Hypothesis Hne : tok <> "".
Hypothesis Hf : findSession w (rt_fingerprint dto) tok = Some s.
Hypothesis He : isExpired (now w) s = false.
Hypothesis Hnew : draws_new env w = true.

Local Abbreviation task := (rr_task env w dto tok s).
Local Abbreviation made := (rr_sessions env w dto s).
Local Abbreviation world_of := (rr_world env w dto s).

Lemma rr_matched : In s (sessions w) /\ token s = tok
                   /\ fingerprint s = rt_fingerprint dto.
Proof.
  pose proof (find_some _ _ Hf) as [Hin Hm].
  apply matches_spec in Hm. destruct Hm as [Hfp Ht].
  split; [exact Hin|]. split; [apply Ht | apply Hfp]; reflexivity.
Qed.

Lemma rr_sessions_spec (created : list nat) (j : nat) (x : RefreshSession) :
  In x (made j created) ->
  exists k, In k created
    /\ token x = v4 env (k + entropy w)
    /\ nextSessionId w <= session_id x
    /\ owned_by (user_id (user s)) (rt_fingerprint dto) x = true
    /\ expiresAt x = (now w + jwt_refreshToken_expiresIn env)%Z.
Proof.
  revert j. induction created as [|k created IH]; intros j; cbn; [tauto|].
  intros [<-|Hin].
  - exists k. split; [tauto|]. cbn. split; [reflexivity|]. split; [lia|].
    split; [|reflexivity]. apply owned_by_spec. split; reflexivity.
  - destruct (IH _ Hin) as [k' [Hk' H]]. exists k'. tauto.
Qed.

Lemma rr_sessions_snoc (created : list nat) (j k : nat) :
  made j (created ++ [k])
  = made j created
    ++ [mkSession (List.length created + j + nextSessionId w) (user s)
          (rt_fingerprint dto) (v4 env (k + entropy w))
          (now w + jwt_refreshToken_expiresIn env)%Z].
Proof.
  revert j. induction created as [|k0 created IH]; intros j; cbn.
  - reflexivity.
  - rewrite IH, Nat.add_succ_r. reflexivity.
Qed.

Lemma rr_sessions_length (created : list nat) (j : nat) :
  List.length (made j created) = List.length created.
Proof.
  revert j. induction created as [|k created IH]; intros j; cbn;
    [|rewrite IH]; reflexivity.
Qed.

Lemma rr_world_put (who : bool) (p : RefreshPhase) (removed : bool)
    (drawn : nat) (created : list nat) (st : RefreshRace) :
  world_of (rr_put who p removed drawn created st)
  = world_of (mkRefreshRace p p removed drawn created)
  /\ rr_phase who (rr_put who p removed drawn created st) = p
  /\ rr_phase (negb who) (rr_put who p removed drawn created st)
     = rr_phase (negb who) st.
Proof. destruct who; repeat split. Qed.

Lemma rr_world_eq (st : RefreshRace) (p q : RefreshPhase) :
  world_of st
  = world_of (mkRefreshRace p q (rr_removed st) (rr_drawn st) (rr_created st)).
Proof. reflexivity. Qed.

Lemma rr_world_start : world_of refresh_race_start = w.
Proof.
  unfold rr_world. cbn. rewrite app_nil_r. destruct w. reflexivity.
Qed.

(** A lookup before the removal finds [s]. *)
Lemma rr_lookup_found (st : RefreshRace) :
  rr_removed st = false ->
  findSession (world_of st) (rt_fingerprint dto) tok = Some s.
Proof.
  intros Hr. unfold findSession, rr_world. cbn [sessions]. rewrite Hr.
  rewrite find_extended. unfold findSession in Hf. rewrite Hf. reflexivity.
Qed.

(** A lookup after the removal finds nothing. *)
Lemma rr_lookup_gone (st : RefreshRace) :
  rr_removed st = true ->
  forallb (fun k => Nat.ltb k 2) (rr_created st) = true ->
  findSession (world_of st) (rt_fingerprint dto) tok = None.
Proof.
  intros Hr Hsmall. destruct rr_matched as [Hin [Ht _]].
  destruct (draws_new_spec env w Hnew) as [Hfresh _].
  unfold findSession, rr_world. cbn [sessions]. rewrite Hr.
  apply find_absent. intros x Hx.
  destruct (RefreshSessionService.matches _ x) eqn:Hm; [exfalso|reflexivity].
  apply matches_spec in Hm. destruct Hm as [_ Hxt].
  specialize (Hxt _ eq_refl).
  apply in_app_or in Hx. destruct Hx as [Hx|Hx].
  - cbn in Hx. apply filter_In in Hx. destruct Hx as [Hx Hid].
    assert (x = s)
      by (apply (NoDup_map_inj token (sessions w));
          [apply (ok_tokens_nodup _ Hok) | assumption | assumption
          | congruence]).
    subst x. rewrite Nat.eqb_refl in Hid. discriminate.
  - apply rr_sessions_spec in Hx. destruct Hx as [k [Hk [Hkt _]]].
    rewrite forallb_forall in Hsmall. specialize (Hsmall k Hk).
    apply Nat.ltb_lt in Hsmall.
    apply (Hfresh k s Hsmall Hin). congruence.
Qed.

(** Removing [s] once more changes nothing, and spares what was
    created. *)
Lemma rr_remove (st : RefreshRace) (p q : RefreshPhase) :
  drop_session s (world_of st)
  = world_of (mkRefreshRace p q true (rr_drawn st) (rr_created st)).
Proof.
  unfold drop_session, set_sessions, rr_world. cbn.
  f_equal. rewrite filter_app. f_equal.
  - destruct (rr_removed st); [apply filter_idem | reflexivity].
  - apply filter_all. intros x Hx. apply rr_sessions_spec in Hx.
    destruct Hx as [k [_ [_ [Hid _]]]].
    destruct rr_matched as [Hin _].
    pose proof (ok_session_ids _ Hok s Hin).
    apply Bool.negb_true_iff, Nat.eqb_neq. lia.
Qed.

(** The token of a draw that has not become a session is not in the
    store. *)
Lemma rr_no_collision (st : RefreshRace) (k : nat) :
  Nat.ltb k 2
  && forallb (fun k' => Nat.ltb k' 2 && negb (Nat.eqb k' k)) (rr_created st)
  = true ->
  existsb (fun x => String.eqb (token x) (v4 env (k + entropy w)))
          (sessions (world_of st)) = false.
Proof.
  intros Hg. apply Bool.andb_true_iff in Hg. destruct Hg as [Hk Hall].
  apply Nat.ltb_lt in Hk. rewrite forallb_forall in Hall.
  destruct (draws_new_spec env w Hnew) as [Hfresh Hdiff].
  destruct (existsb _ _) eqn:E; [exfalso|reflexivity].
  apply existsb_exists in E. destruct E as [x [Hx Hxt]].
  apply String.eqb_eq in Hxt.
  unfold rr_world in Hx. cbn [sessions] in Hx.
  apply in_app_or in Hx. destruct Hx as [Hx|Hx].
  - apply (Hfresh k x Hk); [|exact Hxt].
    destruct (rr_removed st); [|exact Hx].
    cbn in Hx. apply filter_In in Hx. tauto.
  - apply rr_sessions_spec in Hx. destruct Hx as [k' [Hk' [Hkt _]]].
    specialize (Hall k' Hk'). apply Bool.andb_true_iff in Hall.
    destruct Hall as [Hlt Hneq].
    apply Nat.ltb_lt in Hlt. apply Bool.negb_true_iff, Nat.eqb_neq in Hneq.
    apply (Hdiff k k' Hk Hlt Hneq). congruence.
Qed.

Lemma rr_create (st : RefreshRace) (k : nat) (p q : RefreshPhase) :
  Nat.ltb k 2
  && forallb (fun k' => Nat.ltb k' 2 && negb (Nat.eqb k' k)) (rr_created st)
  = true ->
  task_step env (task (RCreating k)) (world_of st)
  = (task (RDone k),
     world_of (mkRefreshRace p q (rr_removed st) (rr_drawn st)
                 (rr_created st ++ [k]))).
Proof.
  intros Hg. unfold task_step, rr_task, RefreshSessionService.create.
  rewrite (rr_no_collision st k Hg).
  unfold rr_world, bump_sessionId, set_sessions. cbn.
  f_equal. f_equal.
  - rewrite rr_sessions_snoc, Nat.add_0_r, app_assoc. reflexivity.
  - rewrite length_app. cbn. lia.
Qed.

(** The abstract step is what [task_step] does. *)
Lemma refresh_race_step_sound (who : bool) (st st' : RefreshRace) :
  refresh_race_step who st = Some st' ->
  task_step env (task (rr_phase who st)) (world_of st)
  = (task (rr_phase who st'), world_of st')
  /\ rr_phase (negb who) st' = rr_phase (negb who) st.
Proof.
  unfold refresh_race_step.
  destruct (rr_phase who st) as [| | |k|k|] eqn:Hp.
  - destruct (rr_removed st) eqn:Hr.
    + destruct (forallb _ (rr_created st)) eqn:Hsmall; [|discriminate].
      intros [= <-].
      destruct (rr_world_put who RRejected true (rr_drawn st)
                  (rr_created st) st) as [Hw [Hph Hoth]].
      rewrite Hw, Hph, Hoth. split; [|reflexivity]. cbn [rr_task].
      rewrite (step_begin_gone env dto tok _ (rr_lookup_gone st Hr Hsmall)).
      f_equal. rewrite (rr_world_eq st RRejected RRejected), Hr. reflexivity.
    + intros [= <-].
      destruct (rr_world_put who RRemoving false (rr_drawn st)
                  (rr_created st) st) as [Hw [Hph Hoth]].
      rewrite Hw, Hph, Hoth. split; [|reflexivity]. cbn [rr_task].
      rewrite (step_begin env dto tok s _ Hne (rr_lookup_found st Hr) He).
      f_equal. rewrite (rr_world_eq st RRemoving RRemoving), Hr. reflexivity.
  - intros [= <-].
    destruct (rr_world_put who RSigning true (rr_drawn st)
                (rr_created st) st) as [Hw [Hph Hoth]].
    rewrite Hw, Hph, Hoth. split; [|reflexivity].
    cbn [rr_task]. rewrite step_removing. f_equal. apply rr_remove.
  - intros [= <-].
    destruct (rr_world_put who (RCreating (rr_drawn st)) (rr_removed st)
                (S (rr_drawn st)) (rr_created st) st) as [Hw [Hph Hoth]].
    rewrite Hw, Hph, Hoth. split; reflexivity.
  - destruct (Nat.ltb k 2 && forallb _ (rr_created st)) eqn:Hg;
      [|discriminate].
    intros [= <-].
    destruct (rr_world_put who (RDone k) (rr_removed st) (rr_drawn st)
                (rr_created st ++ [k]) st) as [Hw [Hph Hoth]].
    rewrite Hw, Hph, Hoth. split; [|reflexivity].
    apply rr_create. exact Hg.
  - intros [= <-]. rewrite Hp. split; reflexivity.
  - intros [= <-]. rewrite Hp. split; reflexivity.
Qed.

Lemma refresh_race_run_sound (schedule : list bool) (st st' : RefreshRace) :
  refresh_race_run schedule st = Some st' ->
  interleave env schedule (task (rr_a st)) (task (rr_b st)) (world_of st)
  = (task (rr_a st'), task (rr_b st'), world_of st').
Proof.
  revert st. induction schedule as [|who rest IH]; intros st; cbn.
  - intros [= <-]. reflexivity.
  - destruct (refresh_race_step who st) as [st1|] eqn:Hs; [|discriminate].
    intros Hrun. destruct (refresh_race_step_sound who st st1 Hs) as [H1 H2].
    destruct who; cbn [rr_phase negb] in H1, H2; rewrite H1, <- H2;
      apply IH, Hrun.
Qed.

(** The sessions of the pair once [s] is removed: those created. *)
Lemma rr_pair_sessions (st : RefreshRace) :
  rr_removed st = true ->
  sessions_of (world_of st) (user_id (user s)) (rt_fingerprint dto)
  = made 0 (rr_created st)
  /\ ((0 < jwt_refreshToken_expiresIn env)%Z ->
      active_sessions (world_of st) (user_id (user s)) (rt_fingerprint dto)
      = made 0 (rr_created st)).
Proof.
  intros Hr. destruct rr_matched as [Hin [_ Hfp]].
  pose proof (sessions_of_drop_session s w Hok Hin) as Hnone.
  rewrite Hfp in Hnone. unfold sessions_of in Hnone.
  unfold sessions_of, active_sessions, rr_world. cbn [sessions now].
  rewrite Hr, !filter_app, Hnone, (filter_and_nil _ _ _ Hnone). cbn [app].
  split.
  - apply filter_all. intros x Hx. apply rr_sessions_spec in Hx.
    destruct Hx as [k [_ [_ [_ [Hown _]]]]]. exact Hown.
  - intros Hpos. apply filter_all. intros x Hx. apply rr_sessions_spec in Hx.
    destruct Hx as [k [_ [_ [_ [Hown Hexp]]]]]. rewrite Hown. cbn.
    apply Bool.negb_true_iff.
    destruct (isExpired (now w) x) eqn:E; [|reflexivity].
    apply isExpired_spec in E. lia.
Qed.

End RefreshRaceProof.

Lemma schedules_complete (schedule : list bool) :
  In schedule (schedules (List.length schedule)).
Proof.
  induction schedule as [|x rest IH]; cbn; [tauto|].
  apply in_or_app. destruct x; [right | left]; apply in_map, IH.
Qed.

Lemma turns_length (schedule : list bool) :
  turns false schedule + turns true schedule = List.length schedule.
Proof.
  unfold turns. induction schedule as [|x rest IH]; cbn; [reflexivity|].
  destruct x; cbn; lia.
Qed.

(** All seventy schedules of four round trips each end as
    [refresh_race_verdict] says. *)
Lemma refresh_race_verdicts :
  forallb (fun schedule =>
             implb (Nat.eqb (turns false schedule) 4
                    && Nat.eqb (turns true schedule) 4)
                   (refresh_race_verdict schedule))
          (schedules 8) = true.
Proof. vm_compute. reflexivity. Qed.

Lemma refresh_race_verdict_holds (schedule : list bool) :
  turns false schedule = 4 -> turns true schedule = 4 ->
  refresh_race_verdict schedule = true.
Proof.
  intros Ha Hb. pose proof (turns_length schedule) as Hl.
  rewrite Ha, Hb in Hl. pose proof (schedules_complete schedule) as Hin.
  rewrite <- Hl in Hin. cbn [Nat.add] in Hin.
  pose proof (proj1 (forallb_forall _ _) refresh_race_verdicts _ Hin) as Hv.
  cbn beta in Hv. rewrite Ha, Hb in Hv. exact Hv.
Qed.


(** What two refreshes of one valid token come to, for every schedule of
    their round trips. *)
Lemma refresh_race_outcome (env : Env) (w : World) (dto : RefreshTokensDto)
    (tok : string) (s : RefreshSession) (schedule : list bool) :
  store_ok w -> tok <> "" ->
  findSession w (rt_fingerprint dto) tok = Some s ->
  isExpired (now w) s = false ->
  draws_new env w = true ->
  turns false schedule = 4 -> turns true schedule = 4 ->
  exists st,
    refresh_race_run schedule refresh_race_start = Some st
    /\ interleave env schedule (Begin dto (Some tok)) (Begin dto (Some tok)) w
       = (rr_task env w dto tok s (rr_a st), rr_task env w dto tok s (rr_b st),
          rr_world env w dto s st)
    /\ rr_removed st = true
    /\ List.length
         (sessions_of (rr_world env w dto s st) (user_id (user s))
            (rt_fingerprint dto)) = List.length (rr_created st)
    /\ ((0 < jwt_refreshToken_expiresIn env)%Z ->
        List.length
          (active_sessions (rr_world env w dto s st) (user_id (user s))
             (rt_fingerprint dto)) = List.length (rr_created st)).
Proof.
  intros Hok Hne Hf He Hnew Ha Hb.
  pose proof (refresh_race_verdict_holds schedule Ha Hb) as Hv.
  unfold refresh_race_verdict in Hv.
  destruct (refresh_race_run schedule refresh_race_start) as [st|] eqn:Hrun;
    [|discriminate].
  apply Bool.andb_true_iff in Hv. destruct Hv as [Hr _].
  exists st. split; [reflexivity|]. split.
  - pose proof (refresh_race_run_sound env w dto tok s Hok Hne Hf He Hnew
                  schedule refresh_race_start st Hrun) as Hsound.
    rewrite (rr_world_start env w dto tok s Hok Hf He Hnew) in Hsound.
    exact Hsound.
  - split; [exact Hr|].
    destruct (rr_pair_sessions env w dto tok s Hok Hf st Hr) as [Hs Hact].
    split.
    + rewrite Hs. apply rr_sessions_length.
    + intros Hpos. rewrite (Hact Hpos). apply rr_sessions_length.
Qed.





(** ** Every interleaving of two logins *)

Section LoginRaceProof.

Variable env : Env.
Variable w : World.
Variable dto : LoginDto.
Variable u : User.

Hypothesis Hf :
  find (UserService.matches (UserService.ByLogin (dto_login dto))) (users w)
  = Some u.
Hypothesis Hpw : bcrypt_compare env (dto_password dto) (password u) = true.
Hypothesis Hnew : draws_new env w = true.

Local Abbreviation ltask := (lr_task env w dto u).
Local Abbreviation lworld := (lr_world env w dto u).
Local Abbreviation lsession := (lr_session env w dto u).

Lemma lr_world_put (who : bool) (p : LoginPhase) (deleted : bool)
    (drawn made : nat) (present : list (nat * nat)) (st : LoginRace) :
  lworld (lr_put who p deleted drawn made present st)
  = lworld (mkLoginRace p p deleted drawn made present)
  /\ lr_phase who (lr_put who p deleted drawn made present st) = p
  /\ lr_phase (negb who) (lr_put who p deleted drawn made present st)
     = lr_phase (negb who) st.
Proof. destruct who; repeat split. Qed.

Lemma lr_world_eq (st : LoginRace) (p q : LoginPhase) :
  lworld st
  = lworld (mkLoginRace p q (lr_deleted st) (lr_drawn st) (lr_made st)
              (lr_present st)).
Proof. reflexivity. Qed.

(** A deletion by fingerprint removes every session the logins created
    and leaves the store cleared of the fingerprint. *)
Lemma lr_delete (st : LoginRace) (p q : LoginPhase) :
  drop_fingerprint (dto_fingerprint dto) (lworld st)
  = lworld (mkLoginRace p q true (lr_drawn st) (lr_made st) []).
Proof.
  unfold drop_fingerprint, set_sessions, lr_world. cbn.
  f_equal. rewrite filter_app, app_nil_r.
  assert (filter
            (fun x => negb (RefreshSessionService.matches
               (RefreshSessionService.mkConditions
                  (Some (dto_fingerprint dto)) None) x))
            (map lsession (lr_present st)) = []) as ->.
  { induction (lr_present st) as [|jk l IH]; cbn; [reflexivity|].
    rewrite fingerprint_matches. cbn. rewrite String.eqb_refl. exact IH. }
  rewrite app_nil_r.
  destruct (lr_deleted st); [apply filter_idem | reflexivity].
Qed.

Lemma lr_no_collision (st : LoginRace) (k : nat) :
  Nat.ltb k 2
  && forallb (fun jk => Nat.ltb (snd jk) 2 && negb (Nat.eqb (snd jk) k))
       (lr_present st) = true ->
  existsb (fun x => String.eqb (token x) (v4 env (k + entropy w)))
          (sessions (lworld st)) = false.
Proof.
  intros Hg. apply Bool.andb_true_iff in Hg. destruct Hg as [Hk Hall].
  apply Nat.ltb_lt in Hk. rewrite forallb_forall in Hall.
  destruct (draws_new_spec env w Hnew) as [Hfresh Hdiff].
  destruct (existsb _ _) eqn:E; [exfalso|reflexivity].
  apply existsb_exists in E. destruct E as [x [Hx Hxt]].
  apply String.eqb_eq in Hxt.
  unfold lr_world in Hx. cbn [sessions] in Hx.
  apply in_app_or in Hx. destruct Hx as [Hx|Hx].
  - apply (Hfresh k x Hk); [|exact Hxt].
    destruct (lr_deleted st); [|exact Hx].
    cbn in Hx. apply filter_In in Hx. tauto.
  - apply in_map_iff in Hx. destruct Hx as [jk [<- Hjk]].
    specialize (Hall jk Hjk). apply Bool.andb_true_iff in Hall.
    destruct Hall as [Hlt Hneq].
    apply Nat.ltb_lt in Hlt. apply Bool.negb_true_iff, Nat.eqb_neq in Hneq.
    apply (Hdiff k (snd jk) Hk Hlt Hneq). exact Hxt.
Qed.

Lemma lr_create (st : LoginRace) (k : nat) (p q : LoginPhase) :
  Nat.ltb k 2
  && forallb (fun jk => Nat.ltb (snd jk) 2 && negb (Nat.eqb (snd jk) k))
       (lr_present st) = true ->
  login_step env (ltask (LCreating k)) (lworld st)
  = (ltask (LDone k),
     lworld (mkLoginRace p q (lr_deleted st) (lr_drawn st) (S (lr_made st))
               (lr_present st ++ [(lr_made st, k)]))).
Proof.
  intros Hg. unfold login_step, lr_task, RefreshSessionService.create.
  rewrite (lr_no_collision st k Hg).
  unfold lr_world, bump_sessionId, set_sessions. cbn.
  f_equal. f_equal. rewrite map_app, app_assoc. reflexivity.
Qed.

Lemma login_race_step_sound (who : bool) (st st' : LoginRace) :
  login_race_step who st = Some st' ->
  login_step env (ltask (lr_phase who st)) (lworld st)
  = (ltask (lr_phase who st'), lworld st')
  /\ lr_phase (negb who) st' = lr_phase (negb who) st.
Proof.
  unfold login_race_step.
  destruct (lr_phase who st) as [| | | |k|k] eqn:Hp.
  - intros [= <-].
    destruct (lr_world_put who LComparing (lr_deleted st) (lr_drawn st)
                (lr_made st) (lr_present st) st) as [Hw [Hph Hoth]].
    rewrite Hw, Hph, Hoth. split; [|reflexivity]. cbn [lr_task].
    rewrite (login_step_begin env dto u (lworld st) Hf). reflexivity.
  - intros [= <-].
    destruct (lr_world_put who LDeleting (lr_deleted st) (lr_drawn st)
                (lr_made st) (lr_present st) st) as [Hw [Hph Hoth]].
    rewrite Hw, Hph, Hoth. split; [|reflexivity]. cbn [lr_task].
    rewrite (login_step_compare env dto u (lworld st) Hpw). reflexivity.
  - intros [= <-].
    destruct (lr_world_put who LSigning true (lr_drawn st)
                (lr_made st) [] st) as [Hw [Hph Hoth]].
    rewrite Hw, Hph, Hoth. split; [|reflexivity]. cbn [lr_task].
    rewrite login_step_delete. f_equal. apply lr_delete.
  - intros [= <-].
    destruct (lr_world_put who (LCreating (lr_drawn st)) (lr_deleted st)
                (S (lr_drawn st)) (lr_made st) (lr_present st) st)
      as [Hw [Hph Hoth]].
    rewrite Hw, Hph, Hoth. split; reflexivity.
  - destruct (Nat.ltb k 2 && forallb _ (lr_present st)) eqn:Hg;
      [|discriminate].
    intros [= <-].
    destruct (lr_world_put who (LDone k) (lr_deleted st) (lr_drawn st)
                (S (lr_made st)) (lr_present st ++ [(lr_made st, k)]) st)
      as [Hw [Hph Hoth]].
    rewrite Hw, Hph, Hoth. split; [|reflexivity].
    apply lr_create. exact Hg.
  - intros [= <-]. rewrite Hp. split; reflexivity.
Qed.

Lemma login_race_run_sound (schedule : list bool) (st st' : LoginRace) :
  login_race_run schedule st = Some st' ->
  interleave_logins env schedule (ltask (lr_a st)) (ltask (lr_b st))
    (lworld st)
  = (ltask (lr_a st'), ltask (lr_b st'), lworld st').
Proof.
  revert st. induction schedule as [|who rest IH]; intros st; cbn.
  - intros [= <-]. reflexivity.
  - destruct (login_race_step who st) as [st1|] eqn:Hs; [|discriminate].
    intros Hrun. destruct (login_race_step_sound who st st1 Hs) as [H1 H2].
    destruct who; cbn [lr_phase negb] in H1, H2; rewrite H1, <- H2;
      apply IH, Hrun.
Qed.

Lemma owned_by_issued_login (jk : nat * nat) :
  owned_by (user_id u) (dto_fingerprint dto) (lsession jk) = true.
Proof. apply owned_by_spec. split; reflexivity. Qed.

(** The sessions of the pair once the fingerprint was cleared: those the
    logins created since. *)
Lemma lr_pair_sessions (st : LoginRace) :
  lr_deleted st = true ->
  sessions_of (lworld st) (user_id u) (dto_fingerprint dto)
  = map lsession (lr_present st)
  /\ ((0 < jwt_refreshToken_expiresIn env)%Z ->
      active_sessions (lworld st) (user_id u) (dto_fingerprint dto)
      = map lsession (lr_present st)).
Proof.
  intros Hd.
  pose proof (sessions_of_drop_fingerprint (user_id u) (dto_fingerprint dto)
                w) as Hnone.
  unfold sessions_of in Hnone.
  unfold sessions_of, active_sessions, lr_world. cbn [sessions now].
  rewrite Hd, !filter_app, Hnone, (filter_and_nil _ _ _ Hnone). cbn [app].
  split.
  - apply filter_all. intros x Hx. apply in_map_iff in Hx.
    destruct Hx as [jk [<- _]]. apply owned_by_spec. split; reflexivity.
  - intros Hpos. apply filter_all. intros x Hx. apply in_map_iff in Hx.
    destruct Hx as [jk [<- _]]. rewrite owned_by_issued_login. cbn.
    apply Bool.negb_true_iff.
    destruct (isExpired (now w) (lsession jk)) eqn:E; [|reflexivity].
    apply isExpired_spec in E. cbn in E. lia.
Qed.

End LoginRaceProof.

Lemma lr_world_start (env : Env) (w : World) (dto : LoginDto) (u : User) :
  lr_world env w dto u login_race_start = w.
Proof.
  unfold lr_world. cbn. rewrite app_nil_r. destruct w. reflexivity.
Qed.

(** All 252 schedules of five round trips each end as
    [login_race_verdict] says. *)
Lemma login_race_verdicts :
  forallb (fun schedule =>
             implb (Nat.eqb (turns false schedule) 5
                    && Nat.eqb (turns true schedule) 5)
                   (login_race_verdict schedule))
          (schedules 10) = true.
Proof. vm_compute. reflexivity. Qed.

Lemma login_race_verdict_holds (schedule : list bool) :
  turns false schedule = 5 -> turns true schedule = 5 ->
  login_race_verdict schedule = true.
Proof.
  intros Ha Hb. pose proof (turns_length schedule) as Hl.
  rewrite Ha, Hb in Hl. pose proof (schedules_complete schedule) as Hin.
  rewrite <- Hl in Hin. cbn [Nat.add] in Hin.
  pose proof (proj1 (forallb_forall _ _) login_race_verdicts _ Hin) as Hv.
  cbn beta in Hv. rewrite Ha, Hb in Hv. exact Hv.
Qed.

(** What two logins of one user from one device come to, for every
    schedule of their round trips. *)
Lemma login_race_outcome (env : Env) (w : World) (dto : LoginDto) (u : User)
    (schedule : list bool) :
  find (UserService.matches (UserService.ByLogin (dto_login dto))) (users w)
    = Some u ->
  bcrypt_compare env (dto_password dto) (password u) = true ->
  draws_new env w = true ->
  turns false schedule = 5 -> turns true schedule = 5 ->
  exists k1 k2 w',
    interleave_logins env schedule (LoginBegin dto) (LoginBegin dto) w
    = (lr_task env w dto u (LDone k1), lr_task env w dto u (LDone k2), w')
    /\ List.length (sessions_of w' (user_id u) (dto_fingerprint dto))
       = (if deletes_first schedule then 2 else 1)
    /\ ((0 < jwt_refreshToken_expiresIn env)%Z ->
        List.length (active_sessions w' (user_id u) (dto_fingerprint dto))
        = (if deletes_first schedule then 2 else 1)).
Proof.
  intros Hf Hpw Hnew Ha Hb.
  pose proof (login_race_verdict_holds schedule Ha Hb) as Hv.
  unfold login_race_verdict in Hv.
  destruct (login_race_run schedule login_race_start) as [st|] eqn:Hrun;
    [|discriminate].
  pose proof (login_race_run_sound env w dto u Hf Hpw Hnew schedule
                login_race_start st Hrun) as Hsound.
  rewrite lr_world_start in Hsound. cbn [lr_a lr_b login_race_start] in Hsound.
  cbn [lr_task] in Hsound.
  apply Bool.andb_true_iff in Hv. destruct Hv as [Hv Hlen].
  apply Bool.andb_true_iff in Hv. destruct Hv as [Hv Hdb].
  apply Bool.andb_true_iff in Hv. destruct Hv as [Hdel Hda].
  destruct (lr_a st) as [| | | |k1|k1]; try discriminate.
  destruct (lr_b st) as [| | | |k2|k2]; try discriminate.
  exists k1, k2, (lr_world env w dto u st). split; [exact Hsound|].
  apply Nat.eqb_eq in Hlen.
  destruct (lr_pair_sessions env w dto u st Hdel) as [Hs Hact].
  split; [rewrite Hs | intros Hpos; rewrite (Hact Hpos)];
    rewrite length_map; exact Hlen.
Qed.

(** X16.  Two logins of one user from one device both succeed in every
    interleaving of their round trips.  They leave two sessions for the
    one (user, fingerprint) pair whenever both deletions by fingerprint
    come before either creation, and one session otherwise: [login] does
    not make its deletion and its creation one step.  (The next two draws
    are new values.) *)
Theorem overlapping_logins_two_sessions (env : Env) (w w' : World)
    (dto : LoginDto) (u : User) (schedule : list bool) (a b : LoginTask) :
  find (UserService.matches (UserService.ByLogin (dto_login dto))) (users w)
    = Some u ->
  bcrypt_compare env (dto_password dto) (password u) = true ->
  draws_new env w = true ->
  turns false schedule = 5 ->
  turns true schedule = 5 ->
  interleave_logins env schedule (LoginBegin dto) (LoginBegin dto) w
    = (a, b, w') ->
  (exists c1 c2,
     a = LoginFinished (Ok (public u)) c1
     /\ b = LoginFinished (Ok (public u)) c2)
  /\ List.length (sessions_of w' (user_id u) (dto_fingerprint dto))
     = (if deletes_first schedule then 2 else 1).
Proof.
  intros Hf Hpw Hnew Ha Hb Hrun.
  destruct (login_race_outcome env w dto u schedule Hf Hpw Hnew Ha Hb)
    as [k1 [k2 [w1 [Hconc [Hlen _]]]]].
  rewrite Hconc in Hrun. inversion Hrun; subst a b w'; clear Hrun.
  split; [|exact Hlen].
  eexists. eexists. split; reflexivity.
Qed.

Lemma overlapping_logins_two_sessions_witness :
  List.length
    (sessions_of
       (snd (interleave_logins env0
               [true; false; true; false; false; true; true; false; false;
                true]
               (LoginBegin (mkLoginDto "alice" "secret-a" "dev1"))
               (LoginBegin (mkLoginDto "alice" "secret-a" "dev1")) one_user))
       0 "dev1") = 2.
Proof.
  exact (proj2 (overlapping_logins_two_sessions env0 one_user _
                  (mkLoginDto "alice" "secret-a" "dev1")
                  (mkUser 0 "Alice" "A" "alice" "$2b$10$secret-a")
                  [true; false; true; false; false; true; true; false;
                   false; true] _ _
                  eq_refl eq_refl eq_refl eq_refl eq_refl
                  (surjective_pairing_3 _))).
Defined.

(** ** The session of a pair, one request at a time and overlapping *)

(** C1, as the claim states it, fails: two logins of Alice from her
    device overlap, both deletions by fingerprint running before either
    session is created; both succeed and the store they leave holds two
    active sessions for the one pair. *)
Lemma overlapping_logins_break_uniqueness :
  let call := LoginBegin (mkLoginDto "alice" "secret-a" "dev1") in
  let '(a, b, w') :=
    interleave_logins env0
      [false; false; false; true; true; true; false; false; true; true]
      call call one_user in
  (exists c, a = LoginFinished (Ok (mkPublic 0 "Alice" "A" "alice")) c)
  /\ (exists c, b = LoginFinished (Ok (mkPublic 0 "Alice" "A" "alice")) c)
  /\ map token (active_sessions w' 0 "dev1") = ["rt-2"; "rt-3"]
  /\ List.length (active_sessions w' 0 "dev1") = 2.
Proof.
  vm_compute. split; [eexists; reflexivity|].
  split; [eexists; reflexivity|]. split; reflexivity.
Qed.

(** C1, amended.  In every world reached by a history of requests, each
    served as one unit, at most one non-expired refresh session exists per
    (user, fingerprint); after a register, login or refresh that
    succeeds, exactly one active session exists for the pair it issued the
    session for (the refresh lifetime being positive); and every public
    operation served as one unit leads to a world in which at most one
    non-expired session per pair exists.  The handlers are not atomic:
    from such a world, two logins of one user from one device leave two
    active sessions for the pair when both deletions by fingerprint come
    before either creation and one in every other interleaving of their
    round trips, and two refreshes of one valid token leave two when both
    lookups come before either removal and one in every other
    interleaving (the next two draws being new values). *)
Theorem one_active_session_per_pair (env : Env) (w : World) :
  (0 < jwt_refreshToken_expiresIn env)%Z ->
  reachable env w ->
  (forall uid fp, List.length (active_sessions w uid fp) <= 1)
  /\ (forall dto p c w',
        AuthController.register env dto w = (Ok p, c, w') ->
        exists u, In u (users w') /\ public u = p
          /\ List.length
               (active_sessions w' (user_id u) (reg_fingerprint dto)) = 1)
  /\ (forall dto p c w',
        AuthController.login env dto w = (Ok p, c, w') ->
        exists u,
          find (UserService.matches (UserService.ByLogin (dto_login dto)))
               (users w) = Some u
          /\ public u = p
          /\ List.length
               (active_sessions w' (user_id u) (dto_fingerprint dto)) = 1)
  /\ (forall dto tok c w',
        AuthController.refreshTokens env dto (Some tok) w = (Ok tt, c, w') ->
        exists s,
          findSession w (rt_fingerprint dto) tok = Some s
          /\ List.length
               (active_sessions w' (user_id (user s)) (rt_fingerprint dto))
             = 1)
  /\ (forall ev uid fp,
        List.length (active_sessions (handle env ev w) uid fp) <= 1)
  /\ (forall dto u schedule a b w',
        find (UserService.matches (UserService.ByLogin (dto_login dto)))
             (users w) = Some u ->
        bcrypt_compare env (dto_password dto) (password u) = true ->
        draws_new env w = true ->
        turns false schedule = 5 -> turns true schedule = 5 ->
        interleave_logins env schedule (LoginBegin dto) (LoginBegin dto) w
          = (a, b, w') ->
        List.length
          (active_sessions w' (user_id u) (dto_fingerprint dto))
        = (if deletes_first schedule then 2 else 1))
  /\ (forall dto tok s schedule a b w',
        tok <> "" ->
        findSession w (rt_fingerprint dto) tok = Some s ->
        isExpired (now w) s = false ->
        draws_new env w = true ->
        turns false schedule = 4 -> turns true schedule = 4 ->
        interleave env schedule (Begin dto (Some tok)) (Begin dto (Some tok))
          w = (a, b, w') ->
        List.length
          (active_sessions w' (user_id (user s)) (rt_fingerprint dto))
        = (if lookups_first schedule then 2 else 1)).
Proof.
  intros Hpos Hreach.
  assert (Hle : forall w0, store_ok w0 -> forall uid fp,
            List.length (active_sessions w0 uid fp) <= 1).
  { intros w0 H0 uid fp. unfold active_sessions.
    etransitivity; [apply filter_and_length|].
    apply (ok_one_per_pair _ H0). }
  pose proof (reachable_store_ok env w Hreach) as Hok.
  split; [apply Hle, Hok|].
  split; [|split; [|split; [|split; [|split]]]].
  - intros dto p c w'. rewrite register_eq.
    destruct (find _ (users w)); [discriminate|]. cbv zeta.
    destruct (collides env _); [discriminate|].
    intros H. inversion H; subst; clear H.
    eexists. split; [|split; [reflexivity|]].
    + cbn. apply in_or_app. right. left. reflexivity.
    + rewrite active_after_issue; [reflexivity | exact Hpos |].
      apply (sessions_of_add_user (mkUser (nextUserId w) _ _ _ _));
        [exact Hok | reflexivity].
  - intros dto p c w'. rewrite login_eq.
    destruct (find _ (users w)) as [u|]; [|discriminate].
    destruct (bcrypt_compare env _ _); [|discriminate]. cbv zeta.
    destruct (collides env _); [discriminate|].
    intros H. inversion H; subst; clear H.
    exists u. split; [reflexivity|]. split; [reflexivity|].
    rewrite active_after_issue; [reflexivity | exact Hpos |].
    apply sessions_of_drop_fingerprint.
  - intros dto tok c w'. rewrite refreshTokens_eq.
    destruct (AuthController.falsy (Some tok)); [discriminate|].
    unfold findSession.
    destruct (find _ (sessions w)) as [s|] eqn:Hf; [|discriminate].
    destruct (isExpired (now w) s); [discriminate|]. cbv zeta.
    destruct (collides env _); [discriminate|].
    intros H. inversion H; subst; clear H.
    exists s. split; [reflexivity|].
    apply find_some in Hf. destruct Hf as [Hin Hm].
    apply matches_spec in Hm. destruct Hm as [Hfp _].
    specialize (Hfp _ eq_refl).
    rewrite active_after_issue; [reflexivity | exact Hpos |].
    rewrite <- Hfp. apply sessions_of_drop_session; assumption.
  - intros ev uid fp. apply Hle, store_ok_handle, Hok.
  - intros dto u schedule a b w' Hf Hpw Hnew Ha Hb Hrun.
    destruct (login_race_outcome env w dto u schedule Hf Hpw Hnew Ha Hb)
      as [k1 [k2 [w1 [Hconc [_ Hact]]]]].
    rewrite Hconc in Hrun. inversion Hrun; subst a b w'; clear Hrun.
    apply Hact, Hpos.
  - intros dto tok s schedule a b w' Hne Hf He Hnew Ha Hb Hrun.
    destruct (refresh_race_outcome env w dto tok s schedule Hok Hne Hf He Hnew
                Ha Hb) as [st [Habs [Hconc [_ [_ Hact]]]]].
    rewrite Hconc in Hrun. inversion Hrun; subst a b w'; clear Hrun.
    rewrite (Hact Hpos).
    pose proof (refresh_race_verdict_holds schedule Ha Hb) as Hv.
    unfold refresh_race_verdict in Hv. rewrite Habs in Hv.
    apply Bool.andb_true_iff in Hv. destruct Hv as [_ Hv].
    destruct (lookups_first schedule);
      apply Bool.andb_true_iff in Hv; destruct Hv as [_ Hv];
      apply Nat.eqb_eq, Hv.
Qed.

Lemma one_active_session_per_pair_witness :
  (0 < jwt_refreshToken_expiresIn env0)%Z
  /\ reachable env0 two_users
  /\ (forall uid fp, List.length (active_sessions two_users uid fp) <= 1)
  /\ List.length (active_sessions two_users 0 "dev1") = 1.
Proof.
  split; [reflexivity|].
  split; [exists 0%Z, [Register alice_dev1; Register bob_dev1]; reflexivity|].
  split; [|reflexivity].
  apply (one_active_session_per_pair env0 two_users).
  - reflexivity.
  - exists 0%Z, [Register alice_dev1; Register bob_dev1]. reflexivity.
Defined.
